(** * Vicuna simulation driver ([src/sim/verilator_main.cpp])

    A shallow embedding of the Verilator test bench of the Vicuna vector
    coprocessor: the memory image and its loader, the reference/dump
    writer, the three latency queues, the per-cycle memory protocol, the
    reset sequence and the run-to-completion loop, followed by the
    properties of these that the design document states.

    Conventions of the embedding.
    - C [int] values are integers in [-2^31, 2^31); conversions and the
      arithmetic that can leave this range are written out with [to_int]
      and [to_uint].  [long] is 64 bits wide (LP64).
    - An [int64_t] queue cell is represented by its 64-bit pattern, an
      integer in [0, 2^64): the cells are only copied and converted to the
      unsigned port types, so their signed reading is never observed.
    - Every access to a heap buffer ([mem] and the three queues) is bounds
      checked: an access outside the allocation, which is undefined
      behaviour in C, ends the run with [Fault OutOfBounds]; a write or
      close through a null [FILE*] ends it with [Fault NullStream].
    - Loops whose trip count depends on the device or on the input text
      take a fuel argument and end with [OutOfFuel] when it is used up. *)

From Stdlib Require Import ZArith Lia Ascii String.
From stdpp Require Import base option list.

Local Open Scope Z_scope.

(** ** Outcomes of a run *)

Inductive fault : Set := OutOfBounds | NullStream.

Inductive outcome (A : Type) : Type :=
  | Done (a : A)
  | Fault (f : fault)
  | OutOfFuel.
Arguments Done {A} a.
Arguments Fault {A} f.
Arguments OutOfFuel {A}.

#[global] Instance outcome_ret : MRet outcome := fun A a => Done a.
#[global] Instance outcome_bind : MBind outcome := fun A B k m =>
  match m with
  | Done a => k a
  | Fault f => Fault f
  | OutOfFuel => OutOfFuel
  end.

(** ** Machine integers *)

Definition to_int (v : Z) : Z := (v + 2 ^ 31) mod 2 ^ 32 - 2 ^ 31.
Definition to_uint (v : Z) : Z := v mod 2 ^ 32.
Definition to_u64 (v : Z) : Z := v mod 2 ^ 64.
Definition to_uchar (v : Z) : Z := v mod 256.

Definition b2z (b : bool) : Z := if b then 1 else 0.

(** ** Heap buffers *)

Definition arr_read (a : list Z) (i : Z) : outcome Z :=
  if 0 <=? i then
    match a !! Z.to_nat i with
    | Some v => Done v
    | None => Fault OutOfBounds
    end
  else Fault OutOfBounds.

Definition arr_write (a : list Z) (i v : Z) : outcome (list Z) :=
  if (0 <=? i) && (i <? Z.of_nat (length a))
  then Done (<[Z.to_nat i := v]> a)
  else Fault OutOfBounds.

(** [memset(mem, 0, n)] *)
Definition memset_zero (a : list Z) (n : Z) : list Z :=
  replicate (Z.to_nat n) 0 ++ drop (Z.to_nat n) a.

(** ** Run parameters (the command line of [main]) *)

Record Config : Set := {
  mem_w : Z;
  mem_sz : Z;
  mem_latency : Z;
  extra_cycles : Z
}.

(** Bytes of one bus word, [mem_w / 8] in C (division truncates). *)
Definition bus_bytes (cfg : Config) : Z := mem_w cfg ÷ 8.

(** ** The device under test

    [Vvproc_top] is generated by Verilator from the RTL; only its ports are
    used by the test bench.  The ports are fields of the record, the
    remaining state of the model is [core], and [eval] is a parameter. *)

Record Vvproc_top (Core : Type) : Type := {
  clk_i : Z;
  rst_ni : Z;
  mem_rvalid_i : Z;
  mem_rdata_i : Z;
  mem_err_i : Z;
  mem_req_o : Z;
  mem_addr_o : Z;
  mem_we_o : Z;
  mem_be_o : Z;
  mem_wdata_o : Z;
  core : Core
}.
Arguments clk_i {Core} _.
Arguments rst_ni {Core} _.
Arguments mem_rvalid_i {Core} _.
Arguments mem_rdata_i {Core} _.
Arguments mem_err_i {Core} _.
Arguments mem_req_o {Core} _.
Arguments mem_addr_o {Core} _.
Arguments mem_we_o {Core} _.
Arguments mem_be_o {Core} _.
Arguments mem_wdata_o {Core} _.
Arguments core {Core} _.

(** The C types of the ports are declared in the generated header
    [Vvproc_top.h]: Verilator gives a port of [w] bits the smallest of its
    unsigned types CData (8 bits), SData (16), IData (32) and QData (64)
    that holds it, and an assignment to an input port converts to that
    type.  Wider ports are arrays, which [main] cannot assign; so
    [mem_w <= 64]. *)
Definition port_bits (w : Z) : Z :=
  if w <=? 8 then 8 else if w <=? 16 then 16 else if w <=? 32 then 32 else 64.

Definition to_port (w v : Z) : Z := v mod 2 ^ port_bits w.

Section Ports.
Context {Core : Type}.
Implicit Type t : Vvproc_top Core.

Definition set_clk_i (v : Z) t : Vvproc_top Core :=
  {| clk_i := v; rst_ni := rst_ni t; mem_rvalid_i := mem_rvalid_i t;
     mem_rdata_i := mem_rdata_i t; mem_err_i := mem_err_i t;
     mem_req_o := mem_req_o t; mem_addr_o := mem_addr_o t;
     mem_we_o := mem_we_o t; mem_be_o := mem_be_o t;
     mem_wdata_o := mem_wdata_o t; core := core t |}.

Definition set_rst_ni (v : Z) t : Vvproc_top Core :=
  {| clk_i := clk_i t; rst_ni := v; mem_rvalid_i := mem_rvalid_i t;
     mem_rdata_i := mem_rdata_i t; mem_err_i := mem_err_i t;
     mem_req_o := mem_req_o t; mem_addr_o := mem_addr_o t;
     mem_we_o := mem_we_o t; mem_be_o := mem_be_o t;
     mem_wdata_o := mem_wdata_o t; core := core t |}.

Definition set_mem_rvalid_i (v : Z) t : Vvproc_top Core :=
  {| clk_i := clk_i t; rst_ni := rst_ni t; mem_rvalid_i := v;
     mem_rdata_i := mem_rdata_i t; mem_err_i := mem_err_i t;
     mem_req_o := mem_req_o t; mem_addr_o := mem_addr_o t;
     mem_we_o := mem_we_o t; mem_be_o := mem_be_o t;
     mem_wdata_o := mem_wdata_o t; core := core t |}.

Definition set_mem_rdata_i (v : Z) t : Vvproc_top Core :=
  {| clk_i := clk_i t; rst_ni := rst_ni t; mem_rvalid_i := mem_rvalid_i t;
     mem_rdata_i := v; mem_err_i := mem_err_i t;
     mem_req_o := mem_req_o t; mem_addr_o := mem_addr_o t;
     mem_we_o := mem_we_o t; mem_be_o := mem_be_o t;
     mem_wdata_o := mem_wdata_o t; core := core t |}.

Definition set_mem_err_i (v : Z) t : Vvproc_top Core :=
  {| clk_i := clk_i t; rst_ni := rst_ni t; mem_rvalid_i := mem_rvalid_i t;
     mem_rdata_i := mem_rdata_i t; mem_err_i := v;
     mem_req_o := mem_req_o t; mem_addr_o := mem_addr_o t;
     mem_we_o := mem_we_o t; mem_be_o := mem_be_o t;
     mem_wdata_o := mem_wdata_o t; core := core t |}.
End Ports.

(** One row of the trace file written by [log_cycle]: [rst_ni], [mem_req_o]
    and [mem_addr_o] (the two hazard maps are internal signals of the
    device and the remaining columns are constant text). *)
Definition csv_row : Set := (Z * Z * Z)%type.

(** ** State of the test bench *)

Record Sim (Core : Type) : Type := {
  top : Vvproc_top Core;
  mem : list Z;
  mem_rvalid_queue : list Z;
  mem_rdata_queue : list Z;
  mem_err_queue : list Z;
  main_time : Z;
  fcsv : list csv_row
}.
Arguments top {Core} _.
Arguments mem {Core} _.
Arguments mem_rvalid_queue {Core} _.
Arguments mem_rdata_queue {Core} _.
Arguments mem_err_queue {Core} _.
Arguments main_time {Core} _.
Arguments fcsv {Core} _.

Section Bench.
Context {Core : Type}.
Implicit Type s : Sim Core.
Implicit Type t : Vvproc_top Core.

Definition with_top t s : Sim Core :=
  {| top := t; mem := mem s; mem_rvalid_queue := mem_rvalid_queue s;
     mem_rdata_queue := mem_rdata_queue s; mem_err_queue := mem_err_queue s;
     main_time := main_time s; fcsv := fcsv s |}.

Definition with_mem (m : list Z) s : Sim Core :=
  {| top := top s; mem := m; mem_rvalid_queue := mem_rvalid_queue s;
     mem_rdata_queue := mem_rdata_queue s; mem_err_queue := mem_err_queue s;
     main_time := main_time s; fcsv := fcsv s |}.

Definition with_queues (rv rd er : list Z) s : Sim Core :=
  {| top := top s; mem := mem s; mem_rvalid_queue := rv;
     mem_rdata_queue := rd; mem_err_queue := er;
     main_time := main_time s; fcsv := fcsv s |}.

(** [log_cycle] *)
Definition log_cycle s : Sim Core :=
  {| top := top s; mem := mem s; mem_rvalid_queue := mem_rvalid_queue s;
     mem_rdata_queue := mem_rdata_queue s; mem_err_queue := mem_err_queue s;
     main_time := main_time s + 1;
     fcsv := fcsv s ++ [(rst_ni (top s), mem_req_o (top s), mem_addr_o (top s))] |}.

(** *** Reading the memory request (lines 159-169) *)

(** [(top->mem_addr_o % mem_sz) & ~(mem_w/8-1)], computed in [unsigned]
    and stored in an [int]. *)
Definition request_addr (cfg : Config) t : Z :=
  to_int (Z.land (mem_addr_o t mod to_uint (mem_sz cfg))
                 (to_uint (Z.lnot (bus_bytes cfg - 1)))).

(** The byte-enabled store loop: iterations [i, i+1, ..., i+n-1]. *)
Fixpoint write_bytes (n : nat) (i addr be wdata : Z) (m : list Z)
  : outcome (list Z) :=
  match n with
  | O => Done m
  | S n' =>
      m' ← (if Z.land be (Z.shiftl 1 i) =? 0 then Done m
            else arr_write m (addr + i) (to_uchar (Z.shiftr wdata (i * 8))));
      write_bytes n' (i + 1) addr be wdata m'
  end.

(** The loop that assembles the read data in [mem_rdata_queue[0]]. *)
Fixpoint read_bytes (n : nat) (i addr : Z) (m rd : list Z)
  : outcome (list Z) :=
  match n with
  | O => Done rd
  | S n' =>
      b ← arr_read m (addr + i);
      cur ← arr_read rd 0;
      rd' ← arr_write rd 0 (Z.lor cur (to_u64 (Z.shiftl b (i * 8))));
      read_bytes n' (i + 1) addr m rd'
  end.

Definition mem_request (cfg : Config) s : outcome (Sim Core) :=
  let t := top s in
  let addr := request_addr cfg t in
  let n := Z.to_nat (bus_bytes cfg) in
  m ← (if negb (mem_req_o t =? 0) && negb (mem_we_o t =? 0)
       then write_bytes n 0 addr (mem_be_o t) (mem_wdata_o t) (mem s)
       else Done (mem s));
  rv ← arr_write (mem_rvalid_queue s) 0 (mem_req_o t);
  er ← arr_write (mem_err_queue s) 0 (b2z (mem_sz cfg <=? addr));
  rd ← arr_write (mem_rdata_queue s) 0 0;
  rd' ← read_bytes n 0 addr m rd;
  Done (with_queues rv rd' er (with_mem m s)).

(** *** Fulfilling the request and shifting the queues (lines 176-184) *)

(** Lines 176-178: the oldest response is put on the inbound ports. *)
Definition drive_response (cfg : Config) s : outcome (Sim Core) :=
v ← arr_read (mem_rvalid_queue s) (mem_latency cfg - 1);
d ← arr_read (mem_rdata_queue s) (mem_latency cfg - 1);
e ← arr_read (mem_err_queue s) (mem_latency cfg - 1);
Done (with_top
        (set_mem_err_i (to_port 1 e)
          (set_mem_rdata_i (to_port (mem_w cfg) d)
            (set_mem_rvalid_i (to_port 1 v) (top s)))) s).

Definition fulfill (eval : Vvproc_top Core -> Vvproc_top Core)
  (cfg : Config) s : outcome (Sim Core) :=
s' ← drive_response cfg s;
Done (with_top (eval (top s')) s').

(** [for (i = ..; i > 0; i--) q[i] = q[i-1]], from [i = n] down to 1. *)
Fixpoint shift_queues (n : nat) (rv rd er : list Z)
  : outcome (list Z * list Z * list Z) :=
  match n with
  | O => Done (rv, rd, er)
  | S n' =>
      let i := Z.of_nat n in
      v ← arr_read rv (i - 1);
      rv' ← arr_write rv i v;
      d ← arr_read rd (i - 1);
      rd' ← arr_write rd i d;
      e ← arr_read er (i - 1);
      er' ← arr_write er i e;
      shift_queues n' rv' rd' er'
  end.

Definition advance (cfg : Config) s : outcome (Sim Core) :=
  '(rv, rd, er) ← shift_queues (Z.to_nat (mem_latency cfg - 1))
                     (mem_rvalid_queue s) (mem_rdata_queue s) (mem_err_queue s);
  Done (with_queues rv rd er s).

(** *** One pass through the body of the simulation loop *)

Variable eval : Vvproc_top Core -> Vvproc_top Core.

Definition clock_edge (v : Z) s : Sim Core :=
  with_top (eval (set_clk_i v (top s))) s.

Definition cycle (cfg : Config) s : outcome (Sim Core) :=
  s1 ← mem_request cfg s;
  s2 ← fulfill eval cfg (clock_edge 1 s1);
  s3 ← advance cfg s2;
  Done (log_cycle (clock_edge 0 s3)).

(** The termination test at the end of the body. *)
Definition end_request t : bool :=
  (mem_req_o t =? 1) && (mem_addr_o t =? 0).

Definition next_end_cnt (end_cnt : Z) t : Z :=
  if (0 <? end_cnt) || end_request t then end_cnt + 1 else end_cnt.

(** [while (end_cnt < extra_cycles) { ... }] *)
Fixpoint sim_loop (fuel : nat) (cfg : Config) (end_cnt : Z) s
  : outcome (Sim Core) :=
  if end_cnt <? extra_cycles cfg then
    match fuel with
    | O => OutOfFuel
    | S fuel' =>
        s' ← cycle cfg s;
        sim_loop fuel' cfg (next_end_cnt end_cnt (top s')) s'
    end
  else Done s.

(** *** Reset sequence (lines 141-154) *)

Fixpoint clear_queue (n : nat) (i : Z) (rv : list Z) : outcome (list Z) :=
  match n with
  | O => Done rv
  | S n' => rv' ← arr_write rv i 0; clear_queue n' (i + 1) rv'
  end.

Definition reset_cycle s : Sim Core :=
  log_cycle (clock_edge 0 (clock_edge 1 s)).

Definition reset_dut (cfg : Config) s : outcome (Sim Core) :=
  rv ← clear_queue (Z.to_nat (mem_latency cfg)) 0 (mem_rvalid_queue s);
  let s0 := with_queues rv (mem_rdata_queue s) (mem_err_queue s) s in
  let s1 := with_top (set_rst_ni 0 (set_clk_i 0 (set_mem_rvalid_i 0 (top s0)))) s0 in
  let s2 := Nat.iter 10 reset_cycle s1 in
  Done (with_top (eval (set_rst_ni 1 (top s2))) s2).

Definition simulate (fuel : nat) (cfg : Config) s : outcome (Sim Core) :=
  s' ← reset_dut cfg s;
  sim_loop fuel cfg 0 s'.

(** [n] passes through the loop body with the termination test left out. *)
Fixpoint run_cycles (n : nat) (cfg : Config) s : outcome (Sim Core) :=
  match n with
  | O => Done s
  | S n' => s' ← cycle cfg s; run_cycles n' cfg s'
  end.
End Bench.

(** ** The C library functions used by the loader and the writer

    Text is a list of characters; a C string is the text before its first
    NUL, and a [char*] into a buffer is the suffix that starts there. *)

Definition char_code (c : ascii) : Z := Z.of_N (N_of_ascii c).

Definition nl : ascii := "010"%char.
Definition nul : ascii := "000"%char.

(** [isspace] in the C locale: space, and the controls \t \n \v \f \r. *)
Definition isspace (c : ascii) : bool :=
  (char_code c =? 32) || ((9 <=? char_code c) && (char_code c <=? 13)).

Definition is_blank (c : ascii) : bool := Ascii.eqb c " "%char.

Definition hex_value (c : ascii) : option Z :=
  let n := char_code c in
  if (48 <=? n) && (n <=? 57) then Some (n - 48)
  else if (97 <=? n) && (n <=? 102) then Some (n - 87)
  else if (65 <=? n) && (n <=? 70) then Some (n - 55)
  else None.

Definition starts_hex (s : list ascii) : bool :=
  match s with
  | c :: _ => match hex_value c with Some _ => true | None => false end
  | [] => false
  end.

Fixpoint skip_while (p : ascii -> bool) (s : list ascii) : list ascii :=
  match s with
  | c :: s' => if p c then skip_while p s' else s
  | [] => []
  end.

Fixpoint scan_hex (acc : Z) (s : list ascii) : Z * list ascii :=
  match s with
  | c :: s' =>
      match hex_value c with
      | Some d => scan_hex (acc * 16 + d) s'
      | None => (acc, s)
      end
  | [] => (acc, [])
  end.

Definition clamp_long (v : Z) : Z :=
  if 2 ^ 63 - 1 <? v then 2 ^ 63 - 1
  else if v <? - 2 ^ 63 then - 2 ^ 63
  else v.

(** [strtol(s, &end, 16)]: the value and the end pointer.  White space is
    skipped, then an optional sign and an optional [0x] that is followed by
    a digit; with no digit at all nothing is consumed and the value is 0. *)
Definition strtol16 (s : list ascii) : Z * list ascii :=
  let s1 := skip_while isspace s in
  let '(neg, s2) :=
    match s1 with
    | c :: r =>
        if Ascii.eqb c "-"%char then (true, r)
        else if Ascii.eqb c "+"%char then (false, r)
        else (false, s1)
    | [] => (false, s1)
    end in
  let s3 :=
    match s2 with
    | z :: x :: r =>
        if Ascii.eqb z "0"%char
           && (Ascii.eqb x "x"%char || Ascii.eqb x "X"%char)
           && starts_hex r
        then r else s2
    | _ => s2
    end in
  if starts_hex s3 then
    let '(v, rest) := scan_hex 0 s3 in
    (clamp_long (if neg then - v else v), rest)
  else (0, s).

(** [fgets(buf, room + 1, f)] on a file that is not at its end: the
    characters read and the rest of the file. *)
Fixpoint fgets (room : nat) (file : list ascii) : list ascii * list ascii :=
  match room, file with
  | S room', c :: file' =>
      if Ascii.eqb c nl then ([c], file')
      else let '(l, rest) := fgets room' file' in (c :: l, rest)
  | _, _ => ([], file)
  end.

Fixpoint c_string (buf : list ascii) : list ascii :=
  match buf with
  | c :: buf' => if Ascii.eqb c nul then [] else c :: c_string buf'
  | [] => []
  end.

Definition hex_char (d : Z) : ascii :=
  ascii_of_N (Z.to_N (if d <? 10 then 48 + d else 87 + d)).

(** [n] hexadecimal digits of [u], most significant first. *)
Fixpoint hex_digits (n : nat) (u : Z) : list ascii :=
  match n with
  | O => []
  | S n' => hex_digits n' (u / 16) ++ [hex_char (u mod 16)]
  end.

(** The text printed by ["%08x\n"] for an [int], without the newline: the
    value is read as [unsigned], which has at most eight digits. *)
Definition fprintf_08x (data : Z) : list ascii := hex_digits 8 (to_uint data).

(** ** Loading a program image (lines 99-120) *)

(** [for (i = 0; i < 4; i++) mem[addr+i] = data >> (8*i);] *)
Fixpoint store_bytes (n : nat) (i addr data : Z) (m : list Z)
  : outcome (list Z) :=
  match n with
  | O => Done m
  | S n' =>
      m' ← arr_write m (addr + i) (to_uchar (Z.shiftr data (8 * i)));
      store_bytes n' (i + 1) addr data m'
  end.

(** The loop over the words of one line; [ptr] is the text from the
    current position to the terminating NUL. *)
Fixpoint load_words (fuel : nat) (ptr : list ascii) (addr : Z) (m : list Z)
  : outcome (Z * list Z) :=
  match ptr with
  | [] => Done (addr, m)
  | c :: _ =>
      if Ascii.eqb c nl then Done (addr, m)
      else
        match fuel with
        | O => OutOfFuel
        | S fuel' =>
            let '(v, rest) := strtol16 ptr in
            let data := to_int v in
            m' ← store_bytes 4 0 addr data m;
            load_words fuel' (skip_while is_blank rest) (to_int (addr + 4)) m'
        end
  end.

(** The body of the [fgets] loop for one buffer. *)
Definition load_line (buf : list ascii) (addr : Z) (m : list Z)
  : outcome (Z * list Z) :=
  match buf with
  | [] => Done (addr, m)
  | c :: after =>
      if Ascii.eqb c "#"%char || Ascii.eqb c "/"%char then Done (addr, m)
      else if Ascii.eqb c "@"%char then
        let '(v, rest) := strtol16 after in
        load_words (S (length m)) (skip_while is_blank rest) (to_int (v * 4)) m
      else load_words (S (length m)) buf addr m
  end.

Fixpoint load_file (fuel : nat) (file : list ascii) (addr : Z) (m : list Z)
  : outcome (list Z) :=
  match file with
  | [] => Done m
  | _ :: _ =>
      match fuel with
      | O => OutOfFuel
      | S fuel' =>
          let '(buf, rest) := fgets 255 file in
          '(addr', m') ← load_line (c_string buf) addr m;
          load_file fuel' rest addr' m'
      end
  end.

Definition load_program (cfg : Config) (file : list ascii) (m : list Z)
  : outcome (list Z) :=
  load_file (length file) file 0 (memset_zero m (mem_sz cfg)).

(** ** Writing a reference or dump file (lines 126-135 and 201-210)

    An open stream is the list of lines written so far; [None] is the null
    pointer that [fopen] returns on failure. *)

Definition FILE : Type := option (list (list ascii)).

Fixpoint write_words (fuel : nat) (addr end_ : Z) (m : list Z) (ftmp : FILE)
  : outcome FILE :=
  if addr <? end_ then
    match fuel with
    | O => OutOfFuel
    | S fuel' =>
        b0 ← arr_read m addr;
        b1 ← arr_read m (addr + 1);
        b2 ← arr_read m (addr + 2);
        b3 ← arr_read m (addr + 3);
        let data :=
          to_int (Z.lor (Z.lor (Z.lor b0 (Z.shiftl b1 8)) (Z.shiftl b2 16))
                        (Z.shiftl b3 24)) in
        match ftmp with
        | None => Fault NullStream
        | Some out =>
            write_words fuel' (addr + 4) end_ m (Some (out ++ [fprintf_08x data]))
        end
    end
  else Done ftmp.

Definition fclose (ftmp : FILE) : outcome (list (list ascii)) :=
  match ftmp with
  | None => Fault NullStream
  | Some out => Done out
  end.

(** The files of the host: which program files can be read and with what
    text, and which output paths can be opened for writing. *)
Record FileSystem : Type := {
  fs_read : string -> option (list ascii);
  fs_writable : string -> bool
}.

(** The contents of a file written line by line with ["%08x\n"]. *)
Definition dump_text (lines : list (list ascii)) : list ascii :=
  concat (map (fun l => l ++ [nl]) lines).

(** The files after [fopen(path, "w")], the writes of [lines] and
    [fclose]: [path] now holds these lines, and a later [fopen(path, "r")]
    finds them. *)
Definition fs_write (fs : FileSystem) (path : string)
    (lines : list (list ascii)) : FileSystem :=
  {| fs_read := fun p =>
       if String.eqb p path then Some (dump_text lines) else fs_read fs p;
     fs_writable := fs_writable fs |}.

Record Descriptor : Set := {
  prog_path : string;
  ref_path : string;
  ref_start : Z;
  ref_end : Z;
  dump_path : string;
  dump_start : Z;
  dump_end : Z
}.

(** The bench together with what it has written: the output files and,
    for each message on [stderr], the path that could not be opened. *)
Record Host (Core : Type) : Type := {
  sim : Sim Core;
  written : list (string * list (list ascii));
  stderr : list string
}.
Arguments sim {Core} _.
Arguments written {Core} _.
Arguments stderr {Core} _.

Section Batch.
Context {Core : Type}.
Variable eval : Vvproc_top Core -> Vvproc_top Core.
Implicit Type h : Host Core.

Definition fopen_w (fs : FileSystem) (path : string) : FILE :=
  if fs_writable fs path then Some [] else None.

(** One of the two blocks that write a slice of the memory image. *)
Definition write_slice (fs : FileSystem) (path : string) (start end_ : Z) h
  : outcome (Host Core) :=
  let ftmp := fopen_w fs path in
  let err := match ftmp with None => stderr h ++ [path] | Some _ => stderr h end in
  out ← write_words (Z.to_nat (end_ - start)) start end_ (mem (sim h)) ftmp;
  lines ← fclose out;
  Done {| sim := sim h; written := written h ++ [(path, lines)]; stderr := err |}.

(** The body of the loop over the program list, for a line that has all
    seven fields. *)
Definition run_program (fuel : nat) (fs : FileSystem) (cfg : Config)
    (d : Descriptor) h : outcome (Host Core) :=
  match fs_read fs (prog_path d) with
  | None =>
      Done {| sim := sim h; written := written h;
              stderr := stderr h ++ [prog_path d] |}
  | Some file =>
      m ← load_program cfg file (mem (sim h));
      h1 ← write_slice fs (ref_path d) (ref_start d) (ref_end d)
             {| sim := with_mem m (sim h); written := written h;
                stderr := stderr h |};
      s ← simulate eval fuel cfg (sim h1);
      write_slice fs (dump_path d) (dump_start d) (dump_end d)
        {| sim := s; written := written h1; stderr := stderr h1 |}
  end.

(** The files as a host that started on [fs] finds them: the files it has
    written so far, in the order of writing, on top of [fs]. *)
Definition files (fs : FileSystem) h : FileSystem :=
  fold_left (fun f w => fs_write f w.1 w.2) (written h) fs.

(** The loop over the program list; [fs] holds the files as they were when
    the host had written nothing, and every program finds the files that
    the programs before it have written. *)
Fixpoint run_batch (fuel : nat) (fs : FileSystem) (cfg : Config)
    (ds : list Descriptor) h : outcome (Host Core) :=
  match ds with
  | [] => Done h
  | d :: ds' =>
      h' ← run_program fuel (files fs h) cfg d h;
      run_batch fuel fs cfg ds' h'
  end.
End Batch.

(** ** A scripted device

    A stand-in for the core, used for the concrete runs below: it counts
    the rising clock edges since reset and shows, after the [k]-th edge,
    the [k]-th request of a script (an idle bus once the script is over).
    While [rst_ni] is low the count is zero and the bus is idle. *)

Module Stub.

Record request : Set := {
  req : Z;
  addr : Z;
  we : Z;
  be : Z;
  wdata : Z
}.

Definition idle : request := {| req := 0; addr := 0; we := 0; be := 0; wdata := 0 |}.

Definition read (a : Z) : request :=
  {| req := 1; addr := a; we := 0; be := 0; wdata := 0 |}.

Definition write (a b d : Z) : request :=
  {| req := 1; addr := a; we := 1; be := b; wdata := d |}.

(** The clock level at the last evaluation and the number of rising edges. *)
Definition state : Set := (Z * nat)%type.

Definition show (r : request) (k : nat) (t : Vvproc_top state) : Vvproc_top state :=
  {| clk_i := clk_i t; rst_ni := rst_ni t; mem_rvalid_i := mem_rvalid_i t;
     mem_rdata_i := mem_rdata_i t; mem_err_i := mem_err_i t;
     mem_req_o := req r; mem_addr_o := addr r; mem_we_o := we r;
     mem_be_o := be r; mem_wdata_o := wdata r;
     core := (clk_i t, k) |}.

Definition eval (script : list request) (t : Vvproc_top state) : Vvproc_top state :=
  let '(last, k) := core t in
  if rst_ni t =? 0 then show idle 0 t
  else
    let k' := if (last =? 0) && (clk_i t =? 1) then S k else k in
    show (default idle (script !! k')) k' t.

(** The device as [new Vvproc_top] leaves it, and a bench around it with
    the buffers as allocated: [m] is the content of [mem], and the three
    queues hold [q]. *)
Definition power_on : Vvproc_top state :=
  {| clk_i := 0; rst_ni := 0; mem_rvalid_i := 0; mem_rdata_i := 0;
     mem_err_i := 0; mem_req_o := 0; mem_addr_o := 0; mem_we_o := 0;
     mem_be_o := 0; mem_wdata_o := 0; core := (0, O) |}.

Definition bench (t : Vvproc_top state) (m q : list Z) : Sim state :=
  {| top := t; mem := m; mem_rvalid_queue := q; mem_rdata_queue := q;
     mem_err_queue := q; main_time := 0; fcsv := [] |}.

(** The bench when the device shows the first request of [script], as it
    does after the reset sequence. *)
Definition started (script : list request) (m q : list Z) : Sim state :=
  bench (eval script (set_rst_ni 1 power_on)) m q.

End Stub.

(** * Properties *)

(** ** Outcomes and buffers *)

Lemma bind_Done {A B} (m : outcome A) (k : A -> outcome B) (b : B) :
  m ≫= k = Done b -> exists a, m = Done a /\ k a = Done b.
Proof. destruct m as [a| |]; simpl; intros H; [eauto | discriminate..]. Qed.

Lemma arr_read_Done (a : list Z) (i v : Z) :
  arr_read a i = Done v -> 0 <= i /\ a !! Z.to_nat i = Some v.
Proof.
  unfold arr_read. destruct (Z.leb_spec 0 i); [|discriminate].
  destruct (a !! Z.to_nat i) eqn:E; [|discriminate].
  intros [= ->]. auto.
Qed.

Lemma arr_write_Done (a : list Z) (i v : Z) (a' : list Z) :
  arr_write a i v = Done a' ->
  0 <= i < Z.of_nat (length a) /\ a' = <[Z.to_nat i := v]> a.
Proof.
  unfold arr_write.
  destruct (Z.leb_spec 0 i), (Z.ltb_spec i (Z.of_nat (length a)));
    simpl; intros [= <-]; auto.
Qed.

Lemma arr_read_lookup (a : list Z) (i : nat) (v : Z) :
  a !! i = Some v -> arr_read a (Z.of_nat i) = Done v.
Proof.
  intros H. unfold arr_read.
  destruct (Z.leb_spec 0 (Z.of_nat i)); [|lia].
  now rewrite Nat2Z.id, H.
Qed.

Lemma arr_read_in (a : list Z) (i v : Z) :
  0 <= i -> a !! Z.to_nat i = Some v -> arr_read a i = Done v.
Proof.
  intros Hi H. unfold arr_read.
  destruct (Z.leb_spec 0 i); [|lia]. now rewrite H.
Qed.

Lemma arr_write_in (a : list Z) (i v : Z) :
  0 <= i < Z.of_nat (length a) -> arr_write a i v = Done (<[Z.to_nat i := v]> a).
Proof.
  intros H. unfold arr_write.
  destruct (Z.leb_spec 0 i), (Z.ltb_spec i (Z.of_nat (length a))); simpl; auto; lia.
Qed.

(** Destructs an equation [m ≫= k = Done b] into its two steps. *)
Ltac bind_inv H :=
  let x := fresh "x" in
  let Hx := fresh "H" x in
  apply bind_Done in H; destruct H as (x & Hx & H); simpl in H.

(** ** Bit-level facts used by the bus protocol *)

Lemma land_bit_test (be i : Z) :
  0 <= i -> (Z.land be (Z.shiftl 1 i) =? 0) = negb (Z.testbit be i).
Proof.
  intros Hi. rewrite Z.shiftl_1_l.
  destruct (Z.testbit be i) eqn:E; simpl.
  - apply Z.eqb_neq. intros H0.
    assert (Z.testbit (Z.land be (2 ^ i)) i = true) as Hb
      by (rewrite Z.land_spec, E, Z.pow2_bits_true; auto).
    rewrite H0, Z.bits_0 in Hb. discriminate.
  - apply Z.eqb_eq. apply Z.bits_inj'. intros n Hn.
    rewrite Z.land_spec, Z.bits_0, Z.pow2_bits_eqb by lia.
    destruct (Z.eqb_spec i n) as [->|]; [rewrite E|]; auto using andb_false_r.
Qed.


Lemma to_uint_range (v : Z) : 0 <= to_uint v < 2 ^ 32.
Proof. unfold to_uint. apply Z.mod_pos_bound. lia. Qed.

Lemma to_uint_small (v : Z) : 0 <= v < 2 ^ 32 -> to_uint v = v.
Proof. unfold to_uint. intros. now apply Z.mod_small. Qed.

Lemma to_int_small (v : Z) : - 2 ^ 31 <= v < 2 ^ 31 -> to_int v = v.
Proof. unfold to_int. intros. rewrite Z.mod_small; lia. Qed.

Section BenchFacts.
Context {Core : Type}.
Implicit Type s : Sim Core.
Implicit Type t : Vvproc_top Core.


(** *** The byte-enabled store *)

Lemma write_bytes_spec (n : nat) (i addr be wdata : Z) (m m' : list Z) :
  0 <= i ->
  write_bytes n i addr be wdata m = Done m' ->
  length m' = length m /\
  forall j : Z, 0 <= j ->
    m' !! Z.to_nat j =
      if (i <=? j - addr) && (j - addr <? i + Z.of_nat n)
         && Z.testbit be (j - addr)
      then Some (to_uchar (Z.shiftr wdata ((j - addr) * 8)))
      else m !! Z.to_nat j.
Proof.
  revert i m. induction n as [|n IH]; intros i m Hi H.
  - simpl in H. injection H as <-. split; [done|]. intros j Hj.
    replace (j - addr <? i + Z.of_nat 0) with (j - addr <? i) by (f_equal; lia).
    destruct (Z.leb_spec i (j - addr)), (Z.ltb_spec (j - addr) i); simpl; auto; lia.
  - cbn [write_bytes] in H. bind_inv H.
    apply IH in H as [Hlen Hm']; [|lia].
    rewrite land_bit_test in Hx by done.
    destruct (Z.testbit be i) eqn:Hbit; simpl in Hx.
    + apply arr_write_Done in Hx as [Hin ->].
      rewrite length_insert in Hlen. split; [done|].
      intros j Hj. rewrite Hm' by done.
      destruct (Z.eq_dec (j - addr) i) as [E|E].
      * subst i. rewrite Hbit.
        replace (addr + (j - addr)) with j by lia.
        destruct (Z.leb_spec (j - addr + 1) (j - addr)); [lia|].
        destruct (Z.leb_spec (j - addr) (j - addr)); [|lia].
        destruct (Z.ltb_spec (j - addr) (j - addr + Z.of_nat (S n))); [|lia].
        simpl. rewrite list_lookup_insert_eq by lia. done.
      * rewrite list_lookup_insert_ne by lia.
        destruct (Z.leb_spec (i + 1) (j - addr)), (Z.leb_spec i (j - addr));
          destruct (Z.ltb_spec (j - addr) (i + 1 + Z.of_nat n)),
                   (Z.ltb_spec (j - addr) (i + Z.of_nat (S n)));
          simpl; auto; lia.
    + injection Hx as <-. split; [done|].
      intros j Hj. rewrite Hm' by done.
      destruct (Z.eq_dec (j - addr) i) as [E|E].
      * subst i. rewrite Hbit.
        destruct (Z.leb_spec (j - addr + 1) (j - addr)); [lia|].
        simpl. now rewrite !andb_false_r.
      * destruct (Z.leb_spec (i + 1) (j - addr)), (Z.leb_spec i (j - addr));
          destruct (Z.ltb_spec (j - addr) (i + 1 + Z.of_nat n)),
                   (Z.ltb_spec (j - addr) (i + Z.of_nat (S n)));
          simpl; auto; lia.
Qed.

(** *** The read response *)

Definition is_byte (b : Z) : Prop := 0 <= b < 256.

(** The little-endian value of the [n] bytes of [m] from [addr] on. *)
Fixpoint le_word (n : nat) (addr : Z) (m : list Z) : Z :=
  match n with
  | O => 0
  | S n' => default 0 (m !! Z.to_nat addr) + 256 * le_word n' (addr + 1) m
  end.

Lemma lor_disjoint (acc b k : Z) :
  0 <= k -> 0 <= acc < 2 ^ k -> Z.lor acc (b * 2 ^ k) = acc + b * 2 ^ k.
Proof.
  intros Hk Hacc.
  assert (Z.land acc (b * 2 ^ k) = 0) as Hland.
  { apply Z.bits_inj'. intros n Hn. rewrite Z.land_spec, Z.bits_0.
    destruct (Z.lt_ge_cases n k).
    - rewrite Z.mul_pow2_bits_low by done. apply andb_false_r.
    - destruct (Z.eq_dec acc 0) as [->|].
      + now rewrite Z.bits_0.
      + assert (Z.log2 acc < k) by (apply Z.log2_lt_pow2; lia).
        rewrite Z.bits_above_log2; [done|lia|lia]. }
  now rewrite Z.add_nocarry_lxor, Z.lxor_lor.
Qed.


Lemma read_bytes_value (n : nat) (i addr acc : Z) (m rd rd' : list Z) :
  Forall is_byte m ->
  0 <= i -> i + Z.of_nat n <= 8 ->
  rd !! 0%nat = Some acc -> 0 <= acc < 2 ^ (8 * i) ->
  read_bytes n i addr m rd = Done rd' ->
  rd' !! 0%nat = Some (acc + 2 ^ (8 * i) * le_word n (addr + i) m).
Proof.
  intros Hm. revert i acc rd.
  induction n as [|n IH]; intros i acc rd Hi Hn Hrd Hacc H.
  - injection H as <-. simpl. rewrite Hrd. f_equal. lia.
  - cbn [read_bytes] in H. bind_inv H. bind_inv H. bind_inv H.
    apply arr_read_Done in Hx as [Hpos Hb].
    apply arr_read_Done in Hx0 as [_ Hcur].
    apply arr_write_Done in Hx1 as [Hlen ->].
    change (Z.to_nat 0) with 0%nat in *.
    rewrite Hrd in Hcur. injection Hcur as <-.
    assert (is_byte x) as Hx
      by (eapply Forall_forall; [exact Hm | eapply list_elem_of_lookup_2, Hb]).
    unfold is_byte in Hx.
    assert (0 < 2 ^ (8 * i)) as Hpow by (apply Z.pow_pos_nonneg; lia).
    assert (Z.shiftl x (i * 8) = x * 2 ^ (8 * i)) as Hsh
      by (rewrite Z.shiftl_mul_pow2 by lia; do 2 f_equal; lia).
    assert (2 ^ (8 * (i + 1)) = 256 * 2 ^ (8 * i)) as Hnext
      by (replace (8 * (i + 1)) with (8 + 8 * i) by lia;
          rewrite Z.pow_add_r by lia; done).
    assert (2 ^ (8 * (i + 1)) <= 2 ^ 64) as Hle
      by (apply Z.pow_le_mono_r; lia).
    assert (to_u64 (Z.shiftl x (i * 8)) = x * 2 ^ (8 * i)) as Hu.
    { unfold to_u64. rewrite Hsh. apply Z.mod_small. nia. }
    rewrite Hu, lor_disjoint in H by lia.
    eapply IH in H; [| lia | lia | apply list_lookup_insert_eq; lia | nia].
    rewrite H. f_equal. cbn [le_word]. rewrite Hb. simpl.
    replace (addr + (i + 1)) with (addr + i + 1) by lia. rewrite Hnext. ring.
Qed.

(** *** Shifting the queues *)

Definition shifted (n : nat) (q q' : list Z) : Prop :=
  length q' = length q /\
  forall j : nat,
    q' !! j = if decide (1 <= j <= n)%nat then q !! (j - 1)%nat else q !! j.

Lemma shifted_step (n : nat) (q q' : list Z) (v : Z) :
  q !! n = Some v -> (S n < length q)%nat ->
  shifted n (<[S n := v]> q) q' -> shifted (S n) q q'.
Proof.
  intros Hv Hlen [Hl Hj]. rewrite length_insert in Hl. split; [done|].
  intros j. rewrite Hj.
  destruct (decide (1 <= j <= n)%nat), (decide (1 <= j <= S n)%nat); try lia.
  - apply list_lookup_insert_ne. lia.
  - assert (j = S n) as -> by lia.
    rewrite list_lookup_insert_eq by lia. now rewrite Nat.sub_1_r.
  - apply list_lookup_insert_ne. lia.
Qed.

Lemma shift_queues_spec (n : nat) (rv rd er rv' rd' er' : list Z) :
  shift_queues n rv rd er = Done (rv', rd', er') ->
  shifted n rv rv' /\ shifted n rd rd' /\ shifted n er er'.
Proof.
  revert rv rd er. induction n as [|n IH]; intros rv rd er H.
  - injection H as <- <- <-.
    repeat split; intros j; destruct (decide (1 <= j <= 0)%nat); auto; lia.
  - cbn [shift_queues] in H. do 6 bind_inv H.
    apply IH in H as (Hv & Hd & He).
    replace (Z.of_nat (S n) - 1) with (Z.of_nat n) in * by lia.
    apply arr_read_Done in Hx as [_ Hx], Hx1 as [_ Hx1], Hx3 as [_ Hx3].
    apply arr_write_Done in Hx0 as [? ->], Hx2 as [? ->], Hx4 as [? ->].
    rewrite Nat2Z.id in *.
    repeat split; eapply shifted_step; eauto; lia.
Qed.
End BenchFacts.

(** ** One cycle of the bench *)

Section CycleFacts.
Context {Core : Type}.
Variable eval : Vvproc_top Core -> Vvproc_top Core.
Implicit Type s : Sim Core.

(** The three queue cells at index [j]. *)
Definition cell (j : nat) s : option Z * option Z * option Z :=
  (mem_rvalid_queue s !! j, mem_rdata_queue s !! j, mem_err_queue s !! j).

Lemma mem_request_Done (cfg : Config) s s1 :
  mem_request cfg s = Done s1 ->
  exists rd,
    (if negb (mem_req_o (top s) =? 0) && negb (mem_we_o (top s) =? 0)
     then write_bytes (Z.to_nat (bus_bytes cfg)) 0 (request_addr cfg (top s))
            (mem_be_o (top s)) (mem_wdata_o (top s)) (mem s)
     else Done (mem s)) = Done (mem s1) /\
    top s1 = top s /\ main_time s1 = main_time s /\ fcsv s1 = fcsv s /\
    arr_write (mem_rvalid_queue s) 0 (mem_req_o (top s))
      = Done (mem_rvalid_queue s1) /\
    arr_write (mem_err_queue s) 0
        (b2z (mem_sz cfg <=? request_addr cfg (top s)))
      = Done (mem_err_queue s1) /\
    arr_write (mem_rdata_queue s) 0 0 = Done rd /\
    read_bytes (Z.to_nat (bus_bytes cfg)) 0 (request_addr cfg (top s))
      (mem s1) rd = Done (mem_rdata_queue s1).
Proof.
  unfold mem_request. intros H. do 5 bind_inv H. injection H as <-.
  exists x2. simpl. auto 10.
Qed.


Lemma drive_response_Done (cfg : Config) s s2 :
  drive_response cfg s = Done s2 ->
  exists v d e,
    0 <= mem_latency cfg - 1 /\
    cell (Z.to_nat (mem_latency cfg - 1)) s = (Some v, Some d, Some e) /\
    s2 = with_top
           (set_mem_err_i (to_port 1 e)
             (set_mem_rdata_i (to_port (mem_w cfg) d)
               (set_mem_rvalid_i (to_port 1 v) (top s)))) s.
Proof.
  unfold drive_response. intros H. do 3 bind_inv H. injection H as <-.
  apply arr_read_Done in Hx as [? Hx], Hx0 as [_ Hx0], Hx1 as [_ Hx1].
  exists x, x0, x1. unfold cell. rewrite Hx, Hx0, Hx1. auto.
Qed.

Lemma cycle_Done (cfg : Config) s s' :
  cycle eval cfg s = Done s' ->
  exists s1 s2,
    mem_request cfg s = Done s1 /\
    drive_response cfg (clock_edge eval 1 s1) = Done s2 /\
    shift_queues (Z.to_nat (mem_latency cfg - 1)) (mem_rvalid_queue s1)
        (mem_rdata_queue s1) (mem_err_queue s1)
      = Done (mem_rvalid_queue s', mem_rdata_queue s', mem_err_queue s') /\
    mem s' = mem s1 /\
    main_time s' = main_time s + 1 /\
    top s' = eval (set_clk_i 0 (eval (top s2))).
Proof.
  unfold cycle. intros H. do 3 bind_inv H. injection H as <-.
  unfold fulfill in Hx0. bind_inv Hx0. injection Hx0 as <-.
  unfold advance in Hx1. bind_inv Hx1.
  destruct x0 as [[rv rd] er]. injection Hx1 as <-.
  exists x, x2. split; [done|]. split; [done|].
  apply drive_response_Done in Hx2 as (v & d & e & _ & _ & ->).
  simpl in *. split; [done|]. split; [done|].
  apply mem_request_Done in Hx as (_ & _ & _ & -> & _). auto.
Qed.


Lemma run_cycles_add (a b : nat) (cfg : Config) s :
  run_cycles eval (a + b) cfg s = run_cycles eval a cfg s ≫= run_cycles eval b cfg.
Proof.
  revert s. induction a as [|a IH]; intros s; [done|].
  cbn [Nat.add run_cycles]. destruct (cycle eval cfg s); simpl; auto.
Qed.


Lemma run_cycles_time (m : nat) (cfg : Config) s s' :
  run_cycles eval m cfg s = Done s' -> main_time s' = main_time s + Z.of_nat m.
Proof.
  revert s. induction m as [|m IH]; intros s H.
  - injection H as <-. lia.
  - cbn [run_cycles] in H. bind_inv H. apply IH in H.
    apply cycle_Done in Hx as (_ & _ & _ & _ & _ & _ & Ht & _). lia.
Qed.
End CycleFacts.

(** ** Passes that complete *)

(** A configuration as the core supports it: a bus of 1, 2, 4 or 8 bytes, a
    memory of a whole number of bus words, and a latency of at least 1. *)
Record well_formed (cfg : Config) : Prop := {
  wf_bus : exists k, 0 <= k <= 3 /\ bus_bytes cfg = 2 ^ k;
  wf_size : 0 < mem_sz cfg < 2 ^ 31;
  wf_words : mem_sz cfg mod bus_bytes cfg = 0;
  wf_latency : 1 <= mem_latency cfg
}.

(** The buffers have the sizes that [main] allocates. *)
Definition allocated {Core : Type} (cfg : Config) (s : Sim Core) : Prop :=
  length (mem s) = Z.to_nat (mem_sz cfg) /\
  length (mem_rvalid_queue s) = Z.to_nat (mem_latency cfg) /\
  length (mem_rdata_queue s) = Z.to_nat (mem_latency cfg) /\
  length (mem_err_queue s) = Z.to_nat (mem_latency cfg).

Lemma land_align_mask (x k : Z) :
  0 <= k -> 0 <= x < 2 ^ 32 ->
  Z.land x (to_uint (Z.lnot (2 ^ k - 1))) = 2 ^ k * (x / 2 ^ k).
Proof.
  intros Hk Hx. unfold to_uint.
  rewrite <- Z.land_ones by lia.
  rewrite (Z.land_comm (Z.lnot _)), Z.land_assoc.
  rewrite (Z.land_ones x 32), (Z.mod_small x) by lia.
  replace (2 ^ k - 1) with (Z.ones k) by (rewrite Z.ones_equiv; lia).
  rewrite <- Z.ldiff_land, Z.ldiff_ones_r by lia.
  rewrite Z.shiftl_mul_pow2, Z.shiftr_div_pow2 by lia. lia.
Qed.

Lemma request_addr_word {Core : Type} (cfg : Config) (t : Vvproc_top Core) :
  well_formed cfg ->
  0 <= request_addr cfg t /\ request_addr cfg t + bus_bytes cfg <= mem_sz cfg.
Proof.
  intros [(k & Hk & Hb) Hsz Hw _]. unfold request_addr.
  rewrite (to_uint_small (mem_sz cfg)) by lia.
  pose proof (Z.mod_pos_bound (mem_addr_o t) (mem_sz cfg) ltac:(lia)) as Hx.
  set (x := mem_addr_o t mod mem_sz cfg) in *.
  rewrite Hb in *. rewrite land_align_mask by lia.
  assert (0 < 2 ^ k) as Hp by (apply Z.pow_pos_nonneg; lia).
  apply Z.mod_divide in Hw as [r Hr]; [|lia].
  assert (0 <= x / 2 ^ k) by (apply Z.div_pos; lia).
  assert (x / 2 ^ k < r) by (apply Z.div_lt_upper_bound; lia).
  assert (2 ^ k * (x / 2 ^ k) <= x) by (apply Z.mul_div_le; lia).
  rewrite to_int_small by lia. nia.
Qed.

Lemma write_bytes_total (n : nat) (i addr be wdata : Z) (m : list Z) :
  0 <= addr + i -> addr + i + Z.of_nat n <= Z.of_nat (length m) ->
  exists m', write_bytes n i addr be wdata m = Done m' /\ length m' = length m.
Proof.
  revert i m. induction n as [|n IH]; intros i m Hlo Hhi; [by exists m|].
  cbn [write_bytes]. destruct (Z.land be (Z.shiftl 1 i) =? 0); simpl.
  - destruct (IH (i + 1) m) as (m' & -> & Hl); [lia | lia | by exists m'].
  - rewrite arr_write_in by lia. simpl.
    destruct (IH (i + 1) (<[Z.to_nat (addr + i) := to_uchar (Z.shiftr wdata (i * 8))]> m))
      as (m' & -> & Hl); rewrite ?length_insert in *; [lia | lia | by exists m'].
Qed.

Lemma read_bytes_total (n : nat) (i addr : Z) (m rd : list Z) :
  0 <= addr + i -> addr + i + Z.of_nat n <= Z.of_nat (length m) ->
  (0 < length rd)%nat ->
  exists rd', read_bytes n i addr m rd = Done rd' /\ length rd' = length rd.
Proof.
  revert i rd. induction n as [|n IH]; intros i rd Hlo Hhi Hrd; [by exists rd|].
  cbn [read_bytes].
  destruct (lookup_lt_is_Some_2 m (Z.to_nat (addr + i)) ltac:(lia)) as [b Hb].
  destruct (lookup_lt_is_Some_2 rd 0%nat Hrd) as [cur Hcur].
  rewrite (arr_read_in _ _ _ Hlo Hb). simpl.
  rewrite (arr_read_in rd 0 _ ltac:(lia) Hcur). simpl.
  rewrite arr_write_in by lia. simpl.
  destruct (IH (i + 1) (<[Z.to_nat 0 := Z.lor cur (to_u64 (Z.shiftl b (i * 8)))]> rd))
    as (rd' & -> & Hl); rewrite ?length_insert in *; [lia | lia | lia | by exists rd'].
Qed.

Lemma shift_queues_total (n : nat) (rv rd er : list Z) :
  (n < length rv)%nat -> (n < length rd)%nat -> (n < length er)%nat ->
  exists rv' rd' er',
    shift_queues n rv rd er = Done (rv', rd', er') /\
    length rv' = length rv /\ length rd' = length rd /\ length er' = length er.
Proof.
  revert rv rd er. induction n as [|n IH]; intros rv rd er Hv Hd He.
  - by exists rv, rd, er.
  - cbn [shift_queues]. replace (Z.of_nat (S n) - 1) with (Z.of_nat n) by lia.
    destruct (lookup_lt_is_Some_2 rv n ltac:(lia)) as [v Hv'].
    destruct (lookup_lt_is_Some_2 rd n ltac:(lia)) as [d Hd'].
    destruct (lookup_lt_is_Some_2 er n ltac:(lia)) as [e He'].
    rewrite (arr_read_lookup _ _ _ Hv'). simpl. rewrite arr_write_in by lia. simpl.
    rewrite (arr_read_lookup _ _ _ Hd'). simpl. rewrite arr_write_in by lia. simpl.
    rewrite (arr_read_lookup _ _ _ He'). simpl. rewrite arr_write_in by lia. simpl.
    destruct (IH (<[Z.to_nat (Z.of_nat (S n)) := v]> rv)
                 (<[Z.to_nat (Z.of_nat (S n)) := d]> rd)
                 (<[Z.to_nat (Z.of_nat (S n)) := e]> er))
      as (rv' & rd' & er' & -> & Hl1 & Hl2 & Hl3);
      rewrite ?length_insert in *; try lia.
    by exists rv', rd', er'.
Qed.

Section Completion.
Context {Core : Type}.
Variable eval : Vvproc_top Core -> Vvproc_top Core.
Implicit Type s : Sim Core.

Lemma mem_request_total (cfg : Config) s :
  well_formed cfg -> allocated cfg s ->
  exists s1, mem_request cfg s = Done s1 /\ allocated cfg s1.
Proof.
  intros Hwf (Hm & Hv & Hd & He).
  pose proof (request_addr_word cfg (top s) Hwf) as [Hlo Hhi].
  destruct Hwf as [(k & Hk & Hb) Hsz Hw HL].
  assert (0 < 2 ^ k) as Hp by (apply Z.pow_pos_nonneg; lia).
  unfold mem_request.
  assert (exists m', (if negb (mem_req_o (top s) =? 0) && negb (mem_we_o (top s) =? 0)
            then write_bytes (Z.to_nat (bus_bytes cfg)) 0 (request_addr cfg (top s))
                   (mem_be_o (top s)) (mem_wdata_o (top s)) (mem s)
            else Done (mem s)) = Done m' /\ length m' = length (mem s))
    as (m' & -> & Hm').
  { destruct (negb _ && negb _); [|by exists (mem s)].
    apply write_bytes_total; lia. }
  simpl. rewrite !arr_write_in by lia. simpl.
  destruct (read_bytes_total (Z.to_nat (bus_bytes cfg)) 0 (request_addr cfg (top s)) m'
              (<[Z.to_nat 0 := 0]> (mem_rdata_queue s)))
    as (rd' & -> & Hrd); rewrite ?length_insert in *; try lia.
  simpl. eexists. split; [done|]. unfold allocated. simpl.
  rewrite !length_insert. repeat split; congruence.
Qed.

(** A pass through the loop body completes, and leaves the buffers with
    their sizes. *)
Lemma cycle_total (cfg : Config) s :
  well_formed cfg -> allocated cfg s ->
  exists s', cycle eval cfg s = Done s' /\ allocated cfg s'.
Proof.
  intros Hwf Hs.
  destruct (mem_request_total cfg s Hwf Hs) as (s1 & H1 & (Hm & Hv & Hd & He)).
  pose proof (wf_latency _ Hwf) as HL.
  unfold cycle. rewrite H1. simpl. unfold fulfill, drive_response. simpl.
  destruct (lookup_lt_is_Some_2 (mem_rvalid_queue s1)
              (Z.to_nat (mem_latency cfg - 1)) ltac:(lia)) as [v Hv'].
  destruct (lookup_lt_is_Some_2 (mem_rdata_queue s1)
              (Z.to_nat (mem_latency cfg - 1)) ltac:(lia)) as [d Hd'].
  destruct (lookup_lt_is_Some_2 (mem_err_queue s1)
              (Z.to_nat (mem_latency cfg - 1)) ltac:(lia)) as [e He'].
  rewrite (arr_read_in _ (mem_latency cfg - 1) _ ltac:(lia) Hv'),
    (arr_read_in _ (mem_latency cfg - 1) _ ltac:(lia) Hd'),
    (arr_read_in _ (mem_latency cfg - 1) _ ltac:(lia) He'). simpl.
  unfold advance. simpl.
  destruct (shift_queues_total (Z.to_nat (mem_latency cfg - 1))
              (mem_rvalid_queue s1) (mem_rdata_queue s1) (mem_err_queue s1))
    as (rv' & rd' & er' & -> & Hl1 & Hl2 & Hl3); try lia.
  simpl. eexists. split; [done|]. unfold allocated. simpl.
  repeat split; congruence.
Qed.

End Completion.

(** ** Latency of a response *)

Section Latency.
Context {Core : Type}.
Variable eval : Vvproc_top Core -> Vvproc_top Core.
Implicit Type s : Sim Core.








End Latency.

(** Concrete runs of the scripted device: a 16-byte memory whose byte at
    address [a] is [a], and four reads. *)
Definition ramp16 : list Z := Eval cbv in map Z.of_nat (seq 0 16).

Definition four_reads : list Stub.request :=
  [Stub.read 4; Stub.read 8; Stub.read 12; Stub.read 0].

Definition cfg_latency (L extra : Z) : Config :=
  {| mem_w := 32; mem_sz := 16; mem_latency := L; extra_cycles := extra |}.

Lemma cfg_latency_well_formed (L extra : Z) :
  1 <= L -> well_formed (cfg_latency L extra).
Proof.
  intros HL. split; [exists 2; split; [lia | reflexivity] | simpl; lia |
                     reflexivity | exact HL].
Defined.



(** ** Latency zero *)

Lemma cycle_needs_latency {Core : Type} (eval : Vvproc_top Core -> Vvproc_top Core)
    (cfg : Config) (s s' : Sim Core) :
  cycle eval cfg s = Done s' -> 1 <= mem_latency cfg.
Proof.
  intros H. apply cycle_Done in H as (s1 & s2 & _ & H & _).
  apply drive_response_Done in H as (_ & _ & _ & H & _). lia.
Qed.

(** C2: with [mem_latency = 0] the three queues are allocations of zero
    bytes, and the first pass of the loop body stores to
    [mem_rvalid_queue[0]] (and would read index [-1]): the pass ends in an
    access outside the buffer, whatever the device requests. *)
Theorem latency_zero_faults :
  cycle (Stub.eval four_reads) (cfg_latency 0 1)
    (Stub.started four_reads ramp16 []) = Fault OutOfBounds.
Proof. vm_compute. reflexivity. Qed.

(** ** The error flag *)


(** C3: a request to address 16 of a 16-byte memory is out of range before
    the reduction modulo the size, yet the flag pushed for it is 0: the flag
    compares the reduced address with the size. *)
Theorem error_flag_out_of_range :
  mem_addr_o (top (Stub.started [Stub.read 16] ramp16 [7])) = 16 /\
  mem_sz (cfg_latency 1 1) = 16 /\
  (s1 ← mem_request (cfg_latency 1 1) (Stub.started [Stub.read 16] ramp16 [7]);
   arr_read (mem_err_queue s1) 0) = Done 0.
Proof. repeat split; vm_compute; reflexivity. Qed.

(** ** Write requests *)

Section WriteFacts.
Context {Core : Type}.
Variable eval : Vvproc_top Core -> Vvproc_top Core.
Implicit Type s : Sim Core.

Lemma to_uchar_byte (v : Z) : is_byte (to_uchar v).
Proof. unfold is_byte, to_uchar. apply Z.mod_pos_bound. lia. Qed.

Lemma write_bytes_bytes (n : nat) (i addr be wdata : Z) (m m' : list Z) :
  Forall is_byte m ->
  write_bytes n i addr be wdata m = Done m' -> Forall is_byte m'.
Proof.
  revert i m. induction n as [|n IH]; intros i m Hm H.
  - now injection H as <-.
  - cbn [write_bytes] in H. bind_inv H.
    destruct (Z.land be (Z.shiftl 1 i) =? 0).
    + injection Hx as <-. eauto.
    + apply arr_write_Done in Hx as [_ ->].
      eapply IH; [|exact H]. apply Forall_insert; auto using to_uchar_byte.
Qed.

(** Whether the request at the ports is a write, as line 160 tests it. *)
Definition is_write (t : Vvproc_top Core) : bool :=
  negb (mem_req_o t =? 0) && negb (mem_we_o t =? 0).

(** The memory after one pass is the memory after the write of the pass. *)
Lemma cycle_mem (cfg : Config) s s' :
  cycle eval cfg s = Done s' ->
  (if is_write (top s)
   then write_bytes (Z.to_nat (bus_bytes cfg)) 0 (request_addr cfg (top s))
          (mem_be_o (top s)) (mem_wdata_o (top s)) (mem s)
   else Done (mem s)) = Done (mem s').
Proof.
  intros H. apply cycle_Done in H as (s1 & s2 & H1 & _ & _ & -> & _).
  now apply mem_request_Done in H1 as (_ & H1 & _).
Qed.

Lemma byte_enable_store (cfg : Config) s s' (j : Z) :
  cycle eval cfg s = Done s' ->
  mem_req_o (top s) <> 0 -> mem_we_o (top s) <> 0 ->
  0 <= j ->
  mem s' !! Z.to_nat j =
    if (0 <=? j - request_addr cfg (top s))
       && (j - request_addr cfg (top s) <? bus_bytes cfg)
       && Z.testbit (mem_be_o (top s)) (j - request_addr cfg (top s))
    then Some (to_uchar (Z.shiftr (mem_wdata_o (top s))
                           ((j - request_addr cfg (top s)) * 8)))
    else mem s !! Z.to_nat j.
Proof.
  intros H Hreq Hwe Hj. apply cycle_mem in H. unfold is_write in H.
  destruct (Z.eqb_spec (mem_req_o (top s)) 0); [done|].
  destruct (Z.eqb_spec (mem_we_o (top s)) 0); [done|]. simpl in H.
  apply write_bytes_spec in H as [_ H]; [|lia]. rewrite H by done.
  set (k := j - request_addr cfg (top s)).
  destruct (Z.leb_spec 0 k), (Z.ltb_spec k (bus_bytes cfg)),
    (Z.ltb_spec k (0 + Z.of_nat (Z.to_nat (bus_bytes cfg)))); simpl; auto; lia.
Qed.

(** C5: a pass that serves a write request changes, in the whole memory
    image, exactly the bytes of the addressed bus word whose byte-enable
    bit is set, and gives each of them its byte of the write data; every
    byte whose bit is clear holds after the pass what it held before.  With
    a well-formed configuration the pass does complete. *)
Theorem byte_enable_frame (cfg : Config) s :
  mem_req_o (top s) <> 0 -> mem_we_o (top s) <> 0 ->
  (well_formed cfg -> allocated cfg s -> exists s', cycle eval cfg s = Done s') /\
  forall s' (j : Z),
    cycle eval cfg s = Done s' -> 0 <= j ->
    mem s' !! Z.to_nat j =
      if (0 <=? j - request_addr cfg (top s))
         && (j - request_addr cfg (top s) <? bus_bytes cfg)
         && Z.testbit (mem_be_o (top s)) (j - request_addr cfg (top s))
      then Some (to_uchar (Z.shiftr (mem_wdata_o (top s))
                             ((j - request_addr cfg (top s)) * 8)))
      else mem s !! Z.to_nat j.
Proof.
  intros Hreq Hwe. split.
  - intros Hwf Hs. destruct (cycle_total eval cfg s Hwf Hs) as (s' & H & _). eauto.
  - intros s' j H Hj. now apply byte_enable_store.
Qed.

Lemma pushed_word (cfg : Config) s s' :
  cycle eval cfg s = Done s' ->
  bus_bytes cfg <= 8 ->
  Forall is_byte (mem s) ->
  (if is_write (top s)
   then write_bytes (Z.to_nat (bus_bytes cfg)) 0 (request_addr cfg (top s))
          (mem_be_o (top s)) (mem_wdata_o (top s)) (mem s)
   else Done (mem s)) = Done (mem s') /\
  mem_rvalid_queue s' !! 0%nat = Some (mem_req_o (top s)) /\
  mem_rdata_queue s' !! 0%nat =
    Some (le_word (Z.to_nat (bus_bytes cfg)) (request_addr cfg (top s)) (mem s')).
Proof.
  intros H Hw Hm. pose proof (cycle_mem _ _ _ H) as Hmem.
  split; [exact Hmem|].
  apply cycle_Done in H as (s1 & s2 & H1 & _ & Hsh & Hs' & _).
  apply shift_queues_spec in Hsh as ((_ & Hv) & (_ & Hd) & _).
  rewrite Hv, Hd, Hs'. simpl.
  apply mem_request_Done in H1 as (rd & Hm1 & _ & _ & _ & Hrv & _ & Hrd & Hr).
  apply arr_write_Done in Hrv as [Hlv ->], Hrd as [Hld ->].
  change (Z.to_nat 0) with 0%nat in *.
  split; [apply list_lookup_insert_eq; lia|].
  assert (Forall is_byte (mem s1)) as Hb1.
  { destruct (is_write (top s)).
    - rewrite Hs' in Hmem. eapply write_bytes_bytes; eauto.
    - rewrite Hs' in Hmem. now injection Hmem as <-. }
  eapply (read_bytes_value _ 0 _ 0) in Hr;
    [| done | lia | lia | apply list_lookup_insert_eq; lia | simpl; lia ].
  rewrite Hr. f_equal. rewrite Z.add_0_r. simpl. lia.
Qed.

(** C10: in every pass, and so in one that serves a write, the memory is
    first brought up to date with the write of the pass; the valid flag
    pushed at index 0 is then [mem_req_o], and the data pushed is the bus
    word of the memory with that write applied.  With a well-formed
    configuration the pass does complete. *)
Theorem write_then_read (cfg : Config) s :
  bus_bytes cfg <= 8 ->
  Forall is_byte (mem s) ->
  (well_formed cfg -> allocated cfg s -> exists s', cycle eval cfg s = Done s') /\
  forall s',
    cycle eval cfg s = Done s' ->
    (if is_write (top s)
     then write_bytes (Z.to_nat (bus_bytes cfg)) 0 (request_addr cfg (top s))
            (mem_be_o (top s)) (mem_wdata_o (top s)) (mem s)
     else Done (mem s)) = Done (mem s') /\
    mem_rvalid_queue s' !! 0%nat = Some (mem_req_o (top s)) /\
    mem_rdata_queue s' !! 0%nat =
      Some (le_word (Z.to_nat (bus_bytes cfg)) (request_addr cfg (top s)) (mem s')).
Proof.
  intros Hw Hm. split.
  - intros Hwf Hs. destruct (cycle_total eval cfg s Hwf Hs) as (s' & H & _). eauto.
  - intros s' H. now apply pushed_word.
Qed.
End WriteFacts.

(** A write of [0xAABBCCDD] to address 6 with byte enables [0b0101]: the
    bus word is the one at address 4, and lanes 0 and 2 are written. *)
Definition one_write : list Stub.request := [Stub.write 6 5 2864434397].

Definition write_bench : Sim Stub.state := Stub.started one_write ramp16 [0].

Definition after_pass {Core : Type} (eval : Vvproc_top Core -> Vvproc_top Core)
    (cfg : Config) (s : Sim Core) : Sim Core :=
  match cycle eval cfg s with
  | Done s' => s'
  | _ => s
  end.

Lemma write_bench_pass :
  cycle (Stub.eval one_write) (cfg_latency 1 1) write_bench
    = Done (after_pass (Stub.eval one_write) (cfg_latency 1 1) write_bench).
Proof. vm_compute. reflexivity. Defined.

Lemma write_bench_req : mem_req_o (top write_bench) <> 0.
Proof. vm_compute. discriminate. Defined.

Lemma write_bench_we : mem_we_o (top write_bench) <> 0.
Proof. vm_compute. discriminate. Defined.

Lemma byte_enable_frame_witness :
  mem (after_pass (Stub.eval one_write) (cfg_latency 1 1) write_bench) !! Z.to_nat 5
    = mem write_bench !! Z.to_nat 5 /\
  mem (after_pass (Stub.eval one_write) (cfg_latency 1 1) write_bench) !! Z.to_nat 6
    = Some 187.
Proof.
  split.
  - exact (proj2 (byte_enable_frame (Stub.eval one_write) (cfg_latency 1 1)
                    write_bench write_bench_req write_bench_we)
             _ 5 write_bench_pass ltac:(lia)).
  - exact (proj2 (byte_enable_frame (Stub.eval one_write) (cfg_latency 1 1)
                    write_bench write_bench_req write_bench_we)
             _ 6 write_bench_pass ltac:(lia)).
Defined.

Lemma ramp16_bytes : Forall is_byte ramp16.
Proof. repeat (constructor; [unfold is_byte; lia|]). constructor. Defined.

Lemma write_then_read_witness :
  mem_rvalid_queue (after_pass (Stub.eval one_write) (cfg_latency 1 1) write_bench)
    !! 0%nat = Some 1 /\
  mem_rdata_queue (after_pass (Stub.eval one_write) (cfg_latency 1 1) write_bench)
    !! 0%nat = Some 129697245.
Proof.
  exact (proj2 (proj2 (write_then_read (Stub.eval one_write) (cfg_latency 1 1)
                         write_bench ltac:(vm_compute; discriminate) ramp16_bytes)
                  _ write_bench_pass)).
Defined.

(** ** Termination of the simulation loop *)

Section Termination.
Context {Core : Type}.
Variable eval : Vvproc_top Core -> Vvproc_top Core.
Implicit Type s : Sim Core.

(** While no pass has ended with a request to address 0 showing, the
    counter stays at 0. *)
Lemma sim_loop_running (cfg : Config) (C fuel : nat) s0 sC :
  0 < extra_cycles cfg ->
  run_cycles eval C cfg s0 = Done sC ->
  (forall (k : nat) s, (k < C)%nat ->
     run_cycles eval (S k) cfg s0 = Done s -> end_request (top s) = false) ->
  sim_loop eval (C + fuel) cfg 0 s0 = sim_loop eval fuel cfg 0 sC.
Proof.
  intros He. revert s0. induction C as [|C IH]; intros s0 Hrun Hno.
  - now injection Hrun as <-.
  - cbn [run_cycles] in Hrun. bind_inv Hrun.
    cbn [Nat.add sim_loop].
    destruct (Z.ltb_spec 0 (extra_cycles cfg)); [|lia].
    rewrite Hx. simpl.
    assert (end_request (top x) = false) as Hx0.
    { apply (Hno 0%nat); [lia|]. cbn [run_cycles]. now rewrite Hx. }
    unfold next_end_cnt. rewrite Hx0. simpl.
    apply IH; [done|]. intros k s Hk Hs.
    apply (Hno (S k)); [lia|].
    change (run_cycles eval (S (S k)) cfg s0)
      with (cycle eval cfg s0 ≫= run_cycles eval (S k) cfg).
    now rewrite Hx.
Qed.

(** Once the counter is positive it goes up by one in every pass, whatever
    the device does, and the loop ends when it reaches [extra_cycles]. *)
Lemma sim_loop_draining (cfg : Config) (n fuel : nat) (c : Z) s s' :
  0 < c -> c + Z.of_nat n = extra_cycles cfg ->
  run_cycles eval n cfg s = Done s' -> (n <= fuel)%nat ->
  sim_loop eval fuel cfg c s = Done s'.
Proof.
  revert fuel c s. induction n as [|n IH]; intros fuel c s Hc Hn Hrun Hf.
  - injection Hrun as <-.
    destruct fuel; cbn [sim_loop];
      destruct (Z.ltb_spec c (extra_cycles cfg)); auto; lia.
  - destruct fuel as [|fuel]; [lia|].
    cbn [run_cycles] in Hrun. bind_inv Hrun. cbn [sim_loop].
    destruct (Z.ltb_spec c (extra_cycles cfg)); [|lia].
    rewrite Hx. simpl. unfold next_end_cnt.
    destruct (Z.ltb_spec 0 c); [|lia]. simpl.
    apply IH; [lia | lia | done | lia].
Qed.

(** With [extra_cycles <= 0] the loop body is never entered. *)
Lemma sim_loop_skipped (cfg : Config) (fuel : nat) s :
  extra_cycles cfg <= 0 -> sim_loop eval fuel cfg 0 s = Done s.
Proof.
  intros H. destruct fuel; cbn [sim_loop];
    destruct (Z.ltb_spec 0 (extra_cycles cfg)); auto; lia.
Qed.

(** C4 (as the code has it): passes are numbered from 0, and [C] is the
    first pass at whose end the device shows a request to address 0.  For
    [extra_cycles >= 1] the loop makes exactly the passes
    [0 .. C + extra_cycles - 1] and stops before pass [C + extra_cycles],
    whatever the device does after pass [C]; [main_time] has then advanced
    by [C + extra_cycles]. *)
Theorem sim_loop_halts (cfg : Config) (C fuel : nat) s0 sF :
  1 <= extra_cycles cfg ->
  (forall (k : nat) s, (k < C)%nat ->
     run_cycles eval (S k) cfg s0 = Done s -> end_request (top s) = false) ->
  (forall s, run_cycles eval (S C) cfg s0 = Done s -> end_request (top s) = true) ->
  run_cycles eval (C + Z.to_nat (extra_cycles cfg)) cfg s0 = Done sF ->
  (C + Z.to_nat (extra_cycles cfg) <= fuel)%nat ->
  sim_loop eval fuel cfg 0 s0 = Done sF /\
  main_time sF = main_time s0 + Z.of_nat C + extra_cycles cfg.
Proof.
  intros He Hno Hend Hrun Hfuel. split.
  - destruct (Z.to_nat (extra_cycles cfg)) as [|E] eqn:HE; [lia|].
    rewrite run_cycles_add in Hrun. bind_inv Hrun.
    cbn [run_cycles] in Hrun. bind_inv Hrun.
    assert (end_request (top x0) = true) as Hshow.
    { apply Hend. replace (S C) with (C + 1)%nat by lia.
      rewrite run_cycles_add, Hx. simpl. now rewrite Hx0. }
    replace fuel with (C + S (fuel - C - 1))%nat by lia.
    rewrite (sim_loop_running cfg C _ s0 x) by (done || lia).
    cbn [sim_loop]. destruct (Z.ltb_spec 0 (extra_cycles cfg)); [|lia].
    rewrite Hx0. simpl. unfold next_end_cnt. rewrite Hshow. simpl.
    apply (sim_loop_draining cfg E); [lia | lia | done | lia].
  - apply run_cycles_time in Hrun. lia.
Qed.
End Termination.

(** The state after [n] passes (the state itself if a pass faults). *)
Definition after_passes {Core : Type} (eval : Vvproc_top Core -> Vvproc_top Core)
    (n : nat) (cfg : Config) (s : Sim Core) : Sim Core :=
  match run_cycles eval n cfg s with
  | Done s' => s'
  | _ => s
  end.

Lemma sim_loop_halts_witness :
  sim_loop (Stub.eval four_reads) 7 (cfg_latency 2 5) 0
      (Stub.started four_reads ramp16 [0; 0])
    = Done (after_passes (Stub.eval four_reads) 7 (cfg_latency 2 5)
              (Stub.started four_reads ramp16 [0; 0])) /\
  main_time (after_passes (Stub.eval four_reads) 7 (cfg_latency 2 5)
               (Stub.started four_reads ramp16 [0; 0]))
    = main_time (Stub.started four_reads ramp16 [0; 0]) + Z.of_nat 2 + 5.
Proof.
  apply (sim_loop_halts (Stub.eval four_reads) (cfg_latency 2 5) 2 7).
  - simpl. lia.
  - intros k s Hk H. destruct k as [|[|k]]; [| |lia];
      vm_compute in H; injection H as <-; reflexivity.
  - intros s H. vm_compute in H. injection H as <-. reflexivity.
  - vm_compute. reflexivity.
  - vm_compute. lia.
Defined.

(** C4 as stated fails for [extra_cycles = 0]: the device shows its request
    to address 0 at the end of pass 2, so the loop should halt at pass
    [2 + 0]; it makes no pass at all and returns the state it was given. *)
Lemma no_pass_without_extra_cycles :
  extra_cycles (cfg_latency 2 0) = 0 /\
  (s ← run_cycles (Stub.eval four_reads) 1 (cfg_latency 2 0)
         (Stub.started four_reads ramp16 [0; 0]);
   Done (end_request (top s), main_time s)) = Done (false, 1) /\
  (s ← run_cycles (Stub.eval four_reads) 2 (cfg_latency 2 0)
         (Stub.started four_reads ramp16 [0; 0]);
   Done (end_request (top s), main_time s)) = Done (false, 2) /\
  (s ← run_cycles (Stub.eval four_reads) 3 (cfg_latency 2 0)
         (Stub.started four_reads ramp16 [0; 0]);
   Done (end_request (top s), main_time s)) = Done (true, 3) /\
  (s ← sim_loop (Stub.eval four_reads) 7 (cfg_latency 2 0) 0
         (Stub.started four_reads ramp16 [0; 0]);
   Done (main_time s)) = Done 0.
Proof. repeat split; vm_compute; reflexivity. Qed.

(** ** Reading a dump back *)

(** An independent reader of one line of a reference or dump file: exactly
    eight hexadecimal digits, most significant first. *)
Fixpoint parse_hex (acc : Z) (s : list ascii) : option Z :=
  match s with
  | [] => Some acc
  | c :: s' =>
      match hex_value c with
      | Some d => parse_hex (acc * 16 + d) s'
      | None => None
      end
  end.

Definition parse_hex8 (line : list ascii) : option Z :=
  if Nat.eqb (length line) 8 then parse_hex 0 line else None.

Lemma hex_value_char (d : Z) : 0 <= d < 16 -> hex_value (hex_char d) = Some d.
Proof.
  intros H.
  assert (d = 0 \/ d = 1 \/ d = 2 \/ d = 3 \/ d = 4 \/ d = 5 \/ d = 6 \/ d = 7 \/
          d = 8 \/ d = 9 \/ d = 10 \/ d = 11 \/ d = 12 \/ d = 13 \/ d = 14 \/
          d = 15) as Hd by lia.
  repeat (destruct Hd as [->|Hd]; [vm_compute; reflexivity|]).
  subst d. vm_compute. reflexivity.
Qed.

Lemma parse_hex_app (acc : Z) (l : list ascii) (c : ascii) :
  parse_hex acc (l ++ [c]) =
    match parse_hex acc l with
    | Some v => match hex_value c with Some d => Some (v * 16 + d) | None => None end
    | None => None
    end.
Proof.
  revert acc. induction l as [|x l IH]; intros acc; simpl.
  - destruct (hex_value c); done.
  - destruct (hex_value x); [apply IH | done].
Qed.

Lemma length_hex_digits (n : nat) (u : Z) : length (hex_digits n u) = n.
Proof.
  revert u. induction n as [|n IH]; intros u; [done|].
  cbn [hex_digits]. rewrite length_app, IH. simpl. lia.
Qed.

Lemma parse_hex_digits (n : nat) (u : Z) :
  parse_hex 0 (hex_digits n u) = Some (u mod 16 ^ Z.of_nat n).
Proof.
  revert u. induction n as [|n IH]; intros u.
  - simpl. now rewrite Z.mod_1_r.
  - cbn [hex_digits]. rewrite parse_hex_app, IH.
    rewrite hex_value_char by (apply Z.mod_pos_bound; lia).
    f_equal. rewrite Nat2Z.inj_succ, Z.pow_succ_r by lia.
    rewrite (Z.rem_mul_r u 16 (16 ^ Z.of_nat n)) by lia. ring.
Qed.

(** What [fprintf] writes for a word is read back as that word. *)
Lemma parse_fprintf_08x (data : Z) :
  parse_hex8 (fprintf_08x data) = Some (to_uint data).
Proof.
  unfold parse_hex8, fprintf_08x.
  rewrite length_hex_digits, Nat.eqb_refl, parse_hex_digits. f_equal.
  change (16 ^ Z.of_nat 8) with (2 ^ 32).
  apply Z.mod_small, to_uint_range.
Qed.

(** ** Words of the memory image *)

Lemma to_uint_to_int (v : Z) : to_uint (to_int v) = to_uint v.
Proof.
  unfold to_uint, to_int.
  rewrite Zminus_mod_idemp_l. f_equal. lia.
Qed.

Lemma to_int_mod4 (v : Z) : to_int v mod 4 = v mod 4.
Proof.
  unfold to_int. rewrite (Z.mod_eq (v + 2 ^ 31) (2 ^ 32)) by lia.
  replace (v + 2 ^ 31 - 2 ^ 32 * ((v + 2 ^ 31) / 2 ^ 32) - 2 ^ 31)
    with (v + (- (2 ^ 30 * ((v + 2 ^ 31) / 2 ^ 32))) * 4) by lia.
  apply Z.mod_add. lia.
Qed.

Lemma le_word_4 (a : Z) (m : list Z) :
  le_word 4 a m =
    default 0 (m !! Z.to_nat a) + 256 * default 0 (m !! Z.to_nat (a + 1))
    + 65536 * default 0 (m !! Z.to_nat (a + 2))
    + 16777216 * default 0 (m !! Z.to_nat (a + 3)).
Proof.
  cbn [le_word].
  replace (a + 1 + 1) with (a + 2) by lia.
  replace (a + 2 + 1) with (a + 3) by lia. ring.
Qed.

Lemma le_word_4_range (a : Z) (m : list Z) :
  Forall is_byte m -> 0 <= le_word 4 a m < 2 ^ 32.
Proof.
  intros Hm. rewrite le_word_4.
  assert (forall i : nat, is_byte (default 0 (m !! i))) as Hb.
  { intros i. destruct (m !! i) eqn:E; simpl.
    - eapply Forall_forall; [exact Hm | eapply list_elem_of_lookup_2, E].
    - unfold is_byte. lia. }
  pose proof (Hb (Z.to_nat a)). pose proof (Hb (Z.to_nat (a + 1))).
  pose proof (Hb (Z.to_nat (a + 2))). pose proof (Hb (Z.to_nat (a + 3))).
  unfold is_byte in *. lia.
Qed.

(** The word that the writer assembles from four bytes is the little-endian
    word of the image. *)
Lemma dump_word (a b0 b1 b2 b3 : Z) (m : list Z) :
  Forall is_byte m ->
  m !! Z.to_nat a = Some b0 -> m !! Z.to_nat (a + 1) = Some b1 ->
  m !! Z.to_nat (a + 2) = Some b2 -> m !! Z.to_nat (a + 3) = Some b3 ->
  to_uint (to_int (Z.lor (Z.lor (Z.lor b0 (Z.shiftl b1 8)) (Z.shiftl b2 16))
                         (Z.shiftl b3 24)))
    = le_word 4 a m.
Proof.
  intros Hm H0 H1 H2 H3.
  pose proof (le_word_4_range a m Hm) as Hr.
  rewrite le_word_4, H0, H1, H2, H3 in *. simpl in *.
  assert (forall (i : nat) b, m !! i = Some b -> is_byte b) as Hb
    by (intros i b E; eapply Forall_forall;
        [exact Hm | eapply list_elem_of_lookup_2, E]).
  pose proof (Hb _ _ H0). pose proof (Hb _ _ H1).
  pose proof (Hb _ _ H2). pose proof (Hb _ _ H3).
  unfold is_byte in *.
  rewrite !Z.shiftl_mul_pow2 by lia.
  rewrite (lor_disjoint b0 b1 8) by lia.
  rewrite (lor_disjoint _ b2 16) by lia.
  rewrite (lor_disjoint _ b3 24) by lia.
  rewrite to_uint_to_int. unfold to_uint. rewrite Z.mod_small; lia.
Qed.

Lemma le_word_ext (n : nat) (a : Z) (m m' : list Z) :
  0 <= a ->
  (forall j, a <= j < a + Z.of_nat n -> m' !! Z.to_nat j = m !! Z.to_nat j) ->
  le_word n a m' = le_word n a m.
Proof.
  revert a. induction n as [|n IH]; intros a Ha H; [done|].
  cbn [le_word]. rewrite H by lia. rewrite IH; [done | lia |].
  intros j Hj. apply H. lia.
Qed.

(** ** The loader's stores *)

Lemma store_bytes_spec (n : nat) (i addr data : Z) (m m' : list Z) :
  0 <= i ->
  store_bytes n i addr data m = Done m' ->
  length m' = length m /\
  ((0 < n)%nat -> 0 <= addr + i /\ addr + i + Z.of_nat n <= Z.of_nat (length m)) /\
  forall j : Z, 0 <= j ->
    m' !! Z.to_nat j =
      if (i <=? j - addr) && (j - addr <? i + Z.of_nat n)
      then Some (to_uchar (Z.shiftr data (8 * (j - addr))))
      else m !! Z.to_nat j.
Proof.
  revert i m. induction n as [|n IH]; intros i m Hi H.
  - injection H as <-. split; [done|]. split; [lia|]. intros j Hj.
    destruct (Z.leb_spec i (j - addr)), (Z.ltb_spec (j - addr) (i + Z.of_nat 0));
      simpl; auto; lia.
  - cbn [store_bytes] in H. bind_inv H.
    apply arr_write_Done in Hx as [Hin ->].
    apply IH in H as (Hlen & Hrange & Hm'); [|lia].
    rewrite length_insert in Hlen, Hrange. split; [done|]. split.
    + intros _. destruct n; [lia|]. specialize (Hrange ltac:(lia)). lia.
    + intros j Hj. rewrite Hm' by done.
      destruct (Z.eq_dec (j - addr) i) as [E|E].
      * subst i. replace (addr + (j - addr)) with j by lia.
        destruct (Z.leb_spec (j - addr + 1) (j - addr)); [lia|].
        destruct (Z.leb_spec (j - addr) (j - addr)); [|lia].
        destruct (Z.ltb_spec (j - addr) (j - addr + Z.of_nat (S n))); [|lia].
        simpl. rewrite list_lookup_insert_eq by lia. done.
      * rewrite list_lookup_insert_ne by lia.
        destruct (Z.leb_spec (i + 1) (j - addr)), (Z.leb_spec i (j - addr));
          destruct (Z.ltb_spec (j - addr) (i + 1 + Z.of_nat n)),
                   (Z.ltb_spec (j - addr) (i + Z.of_nat (S n)));
          simpl; auto; lia.
Qed.

Lemma store_bytes_bytes (n : nat) (i addr data : Z) (m m' : list Z) :
  Forall is_byte m -> store_bytes n i addr data m = Done m' -> Forall is_byte m'.
Proof.
  revert i m. induction n as [|n IH]; intros i m Hm H.
  - now injection H as <-.
  - cbn [store_bytes] in H. bind_inv H.
    apply arr_write_Done in Hx as [_ ->].
    eapply IH; [|exact H]. apply Forall_insert; auto using to_uchar_byte.
Qed.

Lemma word_of_bytes (d : Z) :
  to_uchar (Z.shiftr d (8 * 0)) + 256 * to_uchar (Z.shiftr d (8 * 1))
  + 65536 * to_uchar (Z.shiftr d (8 * 2)) + 16777216 * to_uchar (Z.shiftr d (8 * 3))
  = to_uint d.
Proof.
  unfold to_uchar, to_uint. rewrite !Z.shiftr_div_pow2 by lia.
  change (2 ^ (8 * 0)) with 1. change (2 ^ (8 * 1)) with 256.
  change (2 ^ (8 * 2)) with (256 * 256). change (2 ^ (8 * 3)) with (256 * 256 * 256).
  change (2 ^ 32) with (256 * (256 * (256 * 256))).
  rewrite Z.div_1_r, <- !Z.div_div by lia.
  rewrite (Z.rem_mul_r d 256 (256 * (256 * 256))) by lia.
  rewrite (Z.rem_mul_r (d / 256) 256 (256 * 256)) by lia.
  rewrite (Z.rem_mul_r (d / 256 / 256) 256 256) by lia.
  ring.
Qed.

(** After the loader has stored [data] at [addr], the word there is [data]
    and the words that do not overlap it are as before. *)
Lemma le_word_store (addr data a : Z) (m m' : list Z) :
  store_bytes 4 0 addr data m = Done m' ->
  0 <= a ->
  le_word 4 a m' =
    if a =? addr then to_uint data
    else if (a + 4 <=? addr) || (addr + 4 <=? a) then le_word 4 a m
    else le_word 4 a m'.
Proof.
  intros H Ha. apply store_bytes_spec in H as (_ & Hr & H); [|lia].
  specialize (Hr ltac:(lia)).
  destruct (Z.eqb_spec a addr) as [->|Hne].
  - rewrite le_word_4, !H by lia.
    replace (addr - addr) with 0 by lia.
    replace (addr + 1 - addr) with 1 by lia.
    replace (addr + 2 - addr) with 2 by lia.
    replace (addr + 3 - addr) with 3 by lia.
    simpl. apply (word_of_bytes data).
  - destruct ((a + 4 <=? addr) || (addr + 4 <=? a)) eqn:E; [|done].
    apply le_word_ext; [done|]. intros j Hj. rewrite H by lia.
    destruct (Z.leb_spec (a + 4) addr), (Z.leb_spec (addr + 4) a); try discriminate;
      destruct (Z.leb_spec 0 (j - addr)), (Z.ltb_spec (j - addr) (0 + Z.of_nat 4));
      simpl; auto; lia.
Qed.

(** *** The stores of a program text

    The loader seen as a list of word stores: the functions below follow
    [load_words], [load_line] and [load_file] step for step and collect,
    in order, the address and the [int] of every store instead of making
    it.  [wfuel] is the fuel that [load_line] gives to [load_words]. *)

Fixpoint words_stored (fuel : nat) (ptr : list ascii) (addr : Z)
  : Z * list (Z * Z) :=
  match ptr with
  | [] => (addr, [])
  | c :: _ =>
      if Ascii.eqb c nl then (addr, [])
      else
        match fuel with
        | O => (addr, [])
        | S fuel' =>
            let '(v, rest) := strtol16 ptr in
            let '(addr', ws) :=
              words_stored fuel' (skip_while is_blank rest) (to_int (addr + 4)) in
            (addr', (addr, to_int v) :: ws)
        end
  end.

Definition line_stored (wfuel : nat) (buf : list ascii) (addr : Z)
  : Z * list (Z * Z) :=
  match buf with
  | [] => (addr, [])
  | c :: after =>
      if Ascii.eqb c "#"%char || Ascii.eqb c "/"%char then (addr, [])
      else if Ascii.eqb c "@"%char then
        let '(v, rest) := strtol16 after in
        words_stored wfuel (skip_while is_blank rest) (to_int (v * 4))
      else words_stored wfuel buf addr
  end.

Fixpoint file_stored (fuel wfuel : nat) (file : list ascii) (addr : Z)
  : list (Z * Z) :=
  match file with
  | [] => []
  | _ :: _ =>
      match fuel with
      | O => []
      | S fuel' =>
          let '(buf, rest) := fgets 255 file in
          let '(addr', ws) := line_stored wfuel (c_string buf) addr in
          ws ++ file_stored fuel' wfuel rest addr'
      end
  end.

Definition program_stores (cfg : Config) (file : list ascii) : list (Z * Z) :=
  file_stored (length file) (S (Z.to_nat (mem_sz cfg))) file 0.

Fixpoint apply_stores (ws : list (Z * Z)) (m : list Z) : outcome (list Z) :=
  match ws with
  | [] => Done m
  | (a, d) :: ws' => m' ← store_bytes 4 0 a d m; apply_stores ws' m'
  end.

(** The word that a list of stores leaves at [a]: the last one stored
    there, or [cur] when there is none. *)
Definition stored_word (ws : list (Z * Z)) (cur a : Z) : Z :=
  fold_left (fun w '(a', d) => if a' =? a then to_uint d else w) ws cur.

Definition aligned (ws : list (Z * Z)) : Prop :=
  Forall (fun '(a, _) => a mod 4 = 0) ws.

Lemma apply_stores_app (ws1 ws2 : list (Z * Z)) (m : list Z) :
  apply_stores (ws1 ++ ws2) m = apply_stores ws1 m ≫= apply_stores ws2.
Proof.
  revert m. induction ws1 as [|[a d] ws1 IH]; intros m; [done|].
  rewrite <- app_comm_cons. cbn [apply_stores].
  destruct (store_bytes 4 0 a d m); [apply IH | done | done].
Qed.

Lemma apply_stores_length (ws : list (Z * Z)) (m m' : list Z) :
  apply_stores ws m = Done m' -> length m' = length m.
Proof.
  revert m. induction ws as [|[a d] ws IH]; intros m H.
  - now injection H as <-.
  - cbn [apply_stores] in H. bind_inv H. apply IH in H.
    apply store_bytes_spec in Hx as [Hx _]; [|lia]. congruence.
Qed.

Lemma apply_stores_bytes (ws : list (Z * Z)) (m m' : list Z) :
  Forall is_byte m -> apply_stores ws m = Done m' -> Forall is_byte m'.
Proof.
  revert m. induction ws as [|[a d] ws IH]; intros m Hm H.
  - now injection H as <-.
  - cbn [apply_stores] in H. bind_inv H. eauto using store_bytes_bytes.
Qed.

Lemma load_words_stores (fuel : nat) (ptr : list ascii) (addr addr' : Z)
    (m m' : list Z) :
  load_words fuel ptr addr m = Done (addr', m') ->
  (words_stored fuel ptr addr).1 = addr' /\
  apply_stores (words_stored fuel ptr addr).2 m = Done m'.
Proof.
  revert ptr addr m. induction fuel as [|fuel IH]; intros ptr addr m H.
  - destruct ptr as [|c ptr]; simpl in *.
    + injection H as <- <-. auto.
    + destruct (Ascii.eqb c nl); [|discriminate]. injection H as <- <-. auto.
  - destruct ptr as [|c ptr].
    + simpl in *. injection H as <- <-. auto.
    + cbn [load_words words_stored] in *.
      destruct (Ascii.eqb c nl).
      * injection H as <- <-. auto.
      * destruct (strtol16 (c :: ptr)) as [v rest]. bind_inv H.
        apply IH in H as [Ha Hm].
        destruct (words_stored fuel (skip_while is_blank rest) (to_int (addr + 4)))
          as [a ws]. simpl in *. split; [done|]. now rewrite Hx.
Qed.

Lemma load_line_stores (buf : list ascii) (addr addr' : Z) (m m' : list Z) :
  load_line buf addr m = Done (addr', m') ->
  (line_stored (S (length m)) buf addr).1 = addr' /\
  apply_stores (line_stored (S (length m)) buf addr).2 m = Done m'.
Proof.
  unfold load_line, line_stored. destruct buf as [|c after].
  - intros [= <- <-]. auto.
  - destruct (Ascii.eqb c "#" || Ascii.eqb c "/").
    + intros [= <- <-]. auto.
    + destruct (Ascii.eqb c "@").
      * destruct (strtol16 after) as [v rest]. apply load_words_stores.
      * apply load_words_stores.
Qed.

Lemma load_file_stores (fuel : nat) (file : list ascii) (addr : Z) (m m' : list Z) :
  load_file fuel file addr m = Done m' ->
  apply_stores (file_stored fuel (S (length m)) file addr) m = Done m'.
Proof.
  revert file addr m. induction fuel as [|fuel IH]; intros file addr m H.
  - destruct file; simpl in *; [now injection H as <- | discriminate].
  - destruct file as [|c file]; [simpl in *; now injection H as <-|].
    cbn [load_file file_stored] in *.
    destruct (fgets 255 (c :: file)) as [buf rest].
    bind_inv H. destruct x as [addr1 m1].
    apply load_line_stores in Hx as [Ha Hm].
    destruct (line_stored (S (length m)) (c_string buf) addr) as [a ws].
    simpl in *. subst a. rewrite apply_stores_app, Hm. simpl.
    apply IH in H. now rewrite (apply_stores_length _ _ _ Hm) in H.
Qed.

Lemma words_stored_aligned (fuel : nat) (ptr : list ascii) (addr : Z) :
  addr mod 4 = 0 ->
  (words_stored fuel ptr addr).1 mod 4 = 0 /\ aligned (words_stored fuel ptr addr).2.
Proof.
  revert ptr addr. induction fuel as [|fuel IH]; intros ptr addr Ha.
  - destruct ptr as [|c ptr]; simpl; [|destruct (Ascii.eqb c nl)];
      split; auto; constructor.
  - destruct ptr as [|c ptr]; [split; [done|constructor]|].
    cbn [words_stored]. destruct (Ascii.eqb c nl); [split; [done|constructor]|].
    destruct (strtol16 (c :: ptr)) as [v rest].
    specialize (IH (skip_while is_blank rest) (to_int (addr + 4))).
    destruct (words_stored fuel (skip_while is_blank rest) (to_int (addr + 4)))
      as [a ws]. simpl in *.
    destruct IH as [IH1 IH2].
    { rewrite to_int_mod4. rewrite <- Z.add_mod_idemp_l, Ha by lia. done. }
    split; [done|]. constructor; done.
Qed.

Lemma line_stored_aligned (wfuel : nat) (buf : list ascii) (addr : Z) :
  addr mod 4 = 0 ->
  (line_stored wfuel buf addr).1 mod 4 = 0 /\ aligned (line_stored wfuel buf addr).2.
Proof.
  intros Ha. unfold line_stored. destruct buf as [|c after].
  - split; [done|constructor].
  - destruct (Ascii.eqb c "#" || Ascii.eqb c "/"); [split; [done|constructor]|].
    destruct (Ascii.eqb c "@"); [|now apply words_stored_aligned].
    destruct (strtol16 after) as [v rest]. apply words_stored_aligned.
    rewrite to_int_mod4. apply Z.mod_mul. lia.
Qed.

Lemma file_stored_aligned (fuel wfuel : nat) (file : list ascii) (addr : Z) :
  addr mod 4 = 0 -> aligned (file_stored fuel wfuel file addr).
Proof.
  revert file addr. induction fuel as [|fuel IH]; intros file addr Ha.
  - destruct file; constructor.
  - destruct file as [|c file]; [constructor|].
    cbn [file_stored]. destruct (fgets 255 (c :: file)) as [buf rest].
    pose proof (line_stored_aligned wfuel (c_string buf) addr Ha) as [H1 H2].
    destruct (line_stored wfuel (c_string buf) addr) as [a ws]. simpl in *.
    apply Forall_app. split; [done|]. now apply IH.
Qed.

(** The word that aligned stores leave at an aligned address. *)
Lemma le_word_stores (ws : list (Z * Z)) (m m' : list Z) (a : Z) :
  aligned ws -> a mod 4 = 0 -> 0 <= a ->
  apply_stores ws m = Done m' ->
  le_word 4 a m' = stored_word ws (le_word 4 a m) a.
Proof.
  intros Hws Ha Hpos. revert m. induction Hws as [|[a0 d] ws Ha0 Hws IH]; intros m H.
  - now injection H as <-.
  - cbn [apply_stores] in H. bind_inv H. rewrite (IH _ H).
    unfold stored_word. cbn [fold_left]. f_equal.
    rewrite (le_word_store _ _ a _ _ Hx) by done.
    rewrite (Z.eqb_sym a0 a).
    destruct (Z.eqb_spec a a0); [done|].
    destruct (Z.leb_spec (a + 4) a0), (Z.leb_spec (a0 + 4) a); simpl; auto.
    assert (a mod 4 = a0 mod 4) as E by congruence.
    rewrite !Z.mod_eq in E by lia. lia.
Qed.

Lemma le_word_zero (n : nat) (a : Z) (k : nat) : le_word n a (replicate k 0) = 0.
Proof.
  revert a. induction n as [|n IH]; intros a; [done|].
  cbn [le_word]. rewrite IH.
  destruct (replicate k 0 !! Z.to_nat a) eqn:E; [|done].
  apply lookup_replicate in E as [-> _]. done.
Qed.

(** ** Dumping after loading *)

Lemma write_words_spec (fuel : nat) (addr end_ : Z) (m : list Z)
    (out : list (list ascii)) (r : FILE) :
  Forall is_byte m ->
  write_words fuel addr end_ m (Some out) = Done r ->
  exists lines,
    r = Some (out ++ lines) /\
    Z.of_nat (length lines) = (if addr <? end_ then (end_ - addr + 3) / 4 else 0) /\
    forall (k : nat) line, lines !! k = Some line ->
      0 <= addr + 4 * Z.of_nat k /\
      parse_hex8 line = Some (le_word 4 (addr + 4 * Z.of_nat k) m).
Proof.
  intros Hm. revert addr out.
  induction fuel as [|fuel IH]; intros addr out H; cbn [write_words] in H;
    destruct (Z.ltb_spec addr end_) as [Hlt|Hge].
  - discriminate.
  - injection H as <-. exists []. rewrite app_nil_r. repeat split; done.
  - do 4 bind_inv H.
    apply IH in H as (lines & -> & Hlen & Hk).
    apply arr_read_Done in Hx as [Hpos H0], Hx0 as [_ H1], Hx1 as [_ H2],
      Hx2 as [_ H3].
    eexists (_ :: lines). split; [now rewrite <- app_assoc|]. split.
    + cbn [length]. rewrite Nat2Z.inj_succ, Hlen.
      destruct (Z.ltb_spec (addr + 4) end_).
      * replace (end_ - addr + 3) with (end_ - (addr + 4) + 3 + 1 * 4) by lia.
        rewrite Z.div_add by lia. lia.
      * assert ((end_ - addr + 3) / 4 = 1); [|lia].
        symmetry. apply (Z.div_unique _ 4 1 (end_ - addr - 1)); lia.
    + intros [|k] line Hl.
      * injection Hl as <-. rewrite Z.mul_0_r, Z.add_0_r. split; [done|].
        rewrite parse_fprintf_08x. f_equal. now apply dump_word.
      * apply Hk in Hl as [? Hl].
        replace (addr + 4 * Z.of_nat (S k)) with (addr + 4 + 4 * Z.of_nat k) by lia.
        auto.
  - injection H as <-. exists []. rewrite app_nil_r. repeat split; done.
Qed.

(** C9 (as the code has it): a range of the image is dumped right after
    loading; line [k] of the dump, read back as eight hexadecimal digits,
    is the little-endian word of the loaded image at [start + 4k], and for
    a range that starts on a word boundary it is the word that the loader
    stored there last (0 where the program text stores none). *)
Theorem dump_after_load_round_trip (cfg : Config) (file : list ascii)
    (m0 m : list Z) (start end_ : Z) (lines : list (list ascii)) :
  length m0 = Z.to_nat (mem_sz cfg) ->
  load_program cfg file m0 = Done m ->
  write_words (Z.to_nat (end_ - start)) start end_ m (Some []) = Done (Some lines) ->
  Z.of_nat (length lines) = (if start <? end_ then (end_ - start + 3) / 4 else 0) /\
  forall (k : nat) line, lines !! k = Some line ->
    parse_hex8 line = Some (le_word 4 (start + 4 * Z.of_nat k) m) /\
    (start mod 4 = 0 ->
     le_word 4 (start + 4 * Z.of_nat k) m
       = stored_word (program_stores cfg file) 0 (start + 4 * Z.of_nat k)).
Proof.
  intros Hlen Hload Hdump. unfold load_program in Hload.
  assert (memset_zero m0 (mem_sz cfg) = replicate (Z.to_nat (mem_sz cfg)) 0) as Hz.
  { unfold memset_zero. rewrite drop_ge by lia. apply app_nil_r. }
  rewrite Hz in Hload. apply load_file_stores in Hload.
  rewrite length_replicate in Hload. fold (program_stores cfg file) in Hload.
  assert (Forall is_byte m) as Hm.
  { eapply apply_stores_bytes; [|exact Hload].
    apply Forall_replicate. unfold is_byte. lia. }
  apply write_words_spec in Hdump as (lines' & [= ->] & Hn & Hk); [|done].
  split; [done|]. intros k line Hl. apply Hk in Hl as [Hpos Hl].
  split; [done|]. intros Hal.
  assert ((start + 4 * Z.of_nat k) mod 4 = 0) as Hk4.
  { rewrite <- Z.add_mod_idemp_l, Hal by lia.
    rewrite Z.add_0_l, Z.mul_comm. apply Z.mod_mul. lia. }
  rewrite (le_word_stores _ _ _ _ (file_stored_aligned _ _ _ 0 eq_refl) Hk4
             Hpos Hload).
  now rewrite le_word_zero.
Qed.

Definition text (s : string) : list ascii := list_ascii_of_string s.

(** A program text: two words from word address 1 on, after a comment. *)
Definition two_words : list ascii :=
  text "# image" ++ [nl] ++ text "@1" ++ [nl] ++ text "deadbeef 12345678" ++ [nl].

Lemma dump_after_load_round_trip_witness :
  parse_hex8 (text "deadbeef")
    = Some (le_word 4 (0 + 4 * Z.of_nat 1)
              [0; 0; 0; 0; 239; 190; 173; 222; 120; 86; 52; 18; 0; 0; 0; 0]) /\
  le_word 4 (0 + 4 * Z.of_nat 1)
      [0; 0; 0; 0; 239; 190; 173; 222; 120; 86; 52; 18; 0; 0; 0; 0]
    = stored_word (program_stores (cfg_latency 1 1) two_words) 0 (0 + 4 * Z.of_nat 1).
Proof.
  destruct (proj2 (dump_after_load_round_trip (cfg_latency 1 1) two_words ramp16
                     [0; 0; 0; 0; 239; 190; 173; 222; 120; 86; 52; 18; 0; 0; 0; 0]
                     0 16
                     [text "00000000"; text "deadbeef"; text "12345678";
                      text "00000000"]
                     ltac:(reflexivity) ltac:(vm_compute; reflexivity)
                     ltac:(vm_compute; reflexivity)) 1%nat (text "deadbeef")
                  ltac:(reflexivity)) as [Hparse Hstored].
  split; [exact Hparse | exact (Hstored ltac:(reflexivity))].
Defined.

(** C9 as stated fails for a range that does not start on a word
    boundary.  [two_words] stores [deadbeef] at byte 4 and [12345678] at
    byte 8; the dump of the range [5, 9) is the one line [78deadbe], made
    of three bytes of the first word and one of the second: a word that
    the loader has not written, at an address where it has written none. *)
Lemma unaligned_dump_mixes_words :
  load_program (cfg_latency 1 1) two_words ramp16
    = Done [0; 0; 0; 0; 239; 190; 173; 222; 120; 86; 52; 18; 0; 0; 0; 0] /\
  map (fun w => (w.1, to_uint w.2)) (program_stores (cfg_latency 1 1) two_words)
    = [(4, 3735928559); (8, 305419896)] /\
  write_words (Z.to_nat (9 - 5)) 5 9
      [0; 0; 0; 0; 239; 190; 173; 222; 120; 86; 52; 18; 0; 0; 0; 0] (Some [])
    = Done (Some [text "78deadbe"]) /\
  parse_hex8 (text "78deadbe") = Some 2027859390 /\
  stored_word (program_stores (cfg_latency 1 1) two_words) 0 5 = 0.
Proof. repeat split; vm_compute; reflexivity. Qed.

(** ** Addresses of the loader and of the writer *)

(** C6: the loader and the writer use their addresses as they are, with no
    reduction modulo the size of the image.  In a 16-byte image the program
    text [@4 / 1] stores at byte 16, and a dump of the range [16, 20) reads
    byte 16: both are accesses past the end of the buffer. *)
Theorem load_and_dump_outside_image :
  length ramp16 = Z.to_nat (mem_sz (cfg_latency 1 1)) /\
  load_program (cfg_latency 1 1) (text "@4" ++ [nl] ++ text "1" ++ [nl]) ramp16
    = Fault OutOfBounds /\
  write_words (Z.to_nat (20 - 16)) 16 20 ramp16 (Some []) = Fault OutOfBounds.
Proof. repeat split; vm_compute; reflexivity. Qed.

(** ** Output files that cannot be opened *)

(** A host on which every program file holds [two_words] and no file can be
    opened for writing, and a bench with the scripted device. *)
Definition read_only : FileSystem :=
  {| fs_read := fun _ => Some two_words; fs_writable := fun _ => false |}.

Definition whole_image (prog : string) : Descriptor :=
  {| prog_path := prog; ref_path := "ref.txt"; ref_start := 0; ref_end := 16;
     dump_path := "dump.txt"; dump_start := 0; dump_end := 16 |}.

Definition host0 (q : list Z) : Host Stub.state :=
  {| sim := Stub.bench Stub.power_on ramp16 q; written := []; stderr := [] |}.

(** C7: when the reference file cannot be opened the message is printed,
    but the loop that follows still calls [fprintf] on the null stream: the
    block ends there, and with it the program and the rest of the batch. *)
Theorem unwritable_reference_faults :
  fopen_w read_only "ref.txt" = None /\
  write_slice read_only "ref.txt" 0 16 (host0 [0]) = Fault NullStream /\
  run_batch (Stub.eval four_reads) 20 read_only (cfg_latency 1 1)
    [whole_image "a.vmem"; whole_image "b.vmem"] (host0 [0]) = Fault NullStream.
Proof. repeat split; vm_compute; reflexivity. Qed.

(** ** State carried from one program to the next *)

Lemma clear_queue_spec (n i : nat) (rv : list Z) :
  (i + n <= length rv)%nat ->
  exists rv',
    clear_queue n (Z.of_nat i) rv = Done rv' /\
    length rv' = length rv /\
    forall j : nat,
      rv' !! j = if decide (i <= j < i + n)%nat then Some 0 else rv !! j.
Proof.
  revert i rv. induction n as [|n IH]; intros i rv Hlen.
  - exists rv. repeat split. intros j.
    destruct (decide (i <= j < i + 0)%nat); [lia | done].
  - cbn [clear_queue]. rewrite arr_write_in by lia. simpl.
    replace (Z.of_nat i + 1) with (Z.of_nat (S i)) by lia.
    destruct (IH (S i) (<[Z.to_nat (Z.of_nat i) := 0]> rv)) as (rv' & -> & Hl & Hj).
    { rewrite length_insert. lia. }
    rewrite length_insert in Hl. exists rv'. repeat split; [done|].
    intros j. rewrite Hj, Nat2Z.id.
    destruct (decide (S i <= j < S i + n)%nat), (decide (i <= j < i + S n)%nat);
      try lia; try done.
    + assert (j = i) as -> by lia. apply list_lookup_insert_eq. lia.
    + apply list_lookup_insert_ne. lia.
Qed.

(** The valid queue after the reset loop, whatever it held before. *)
Lemma clear_queue_all (n : nat) (rv : list Z) :
  length rv = n -> clear_queue n 0 rv = Done (replicate n 0).
Proof.
  intros Hlen.
  destruct (clear_queue_spec n 0 rv ltac:(lia)) as (rv' & H & Hl & Hj).
  change (Z.of_nat 0) with 0 in H. rewrite H. f_equal.
  apply list_eq. intros j. rewrite Hj.
  destruct (decide (0 <= j < 0 + n)%nat).
  - symmetry. apply lookup_replicate. split; [done | lia].
  - rewrite !lookup_ge_None_2; [done | rewrite length_replicate; lia | lia].
Qed.

Section Residue.
Context {Core : Type}.
Variable eval : Vvproc_top Core -> Vvproc_top Core.
Implicit Type h : Host Core.



End Residue.

(** A host with two program files and writable outputs. *)
Definition image_a : list ascii :=
  text "@0" ++ [nl] ++ text "11111111 22222222 33333333 44444444" ++ [nl].

Definition two_programs : FileSystem :=
  {| fs_read := fun p =>
       if String.eqb p "a.vmem" then Some image_a
       else if String.eqb p "b.vmem" then Some two_words
       else None;
     fs_writable := fun _ => true |}.



(** * Fuel

    The fuel that the model gives to the loops of the loader and of the
    writer is never used up. *)

Lemma store_bytes_not_OutOfFuel (n : nat) (i addr data : Z) (m : list Z) :
  store_bytes n i addr data m <> OutOfFuel.
Proof.
  revert i m. induction n as [|n IH]; intros i m; [done|].
  cbn [store_bytes]. unfold arr_write.
  destruct ((0 <=? addr + i) && (addr + i <? Z.of_nat (length m))); simpl;
    [apply IH | done].
Qed.

Lemma load_words_length (fuel : nat) (ptr : list ascii) (addr addr' : Z)
    (m m' : list Z) :
  load_words fuel ptr addr m = Done (addr', m') -> length m' = length m.
Proof.
  intros H. apply load_words_stores in H as [_ H].
  now apply apply_stores_length in H.
Qed.

Lemma load_words_fuel (fuel : nat) (ptr : list ascii) (addr : Z) (m : list Z) :
  Z.of_nat (length m) < 2 ^ 31 ->
  (1 <= fuel)%nat ->
  (0 <= addr -> Z.of_nat (length m) - addr < 4 * Z.of_nat fuel) ->
  load_words fuel ptr addr m <> OutOfFuel.
Proof.
  intros Hsz. revert ptr addr m Hsz.
  induction fuel as [|fuel IH]; intros ptr addr m Hsz Hf Hm; [lia|].
  destruct ptr as [|c ptr]; [done|]. cbn [load_words].
  destruct (Ascii.eqb c nl); [done|].
  destruct (strtol16 (c :: ptr)) as [v rest].
  destruct (store_bytes 4 0 addr (to_int v) m) as [m'| |] eqn:E; simpl;
    [| done | now apply store_bytes_not_OutOfFuel in E].
  apply store_bytes_spec in E as (Hl & Hr & _); [|lia].
  specialize (Hr ltac:(lia)). rewrite to_int_small by lia.
  apply IH; rewrite ?Hl; lia.
Qed.

Lemma load_line_length (buf : list ascii) (addr addr' : Z) (m m' : list Z) :
  load_line buf addr m = Done (addr', m') -> length m' = length m.
Proof.
  intros H. apply load_line_stores in H as [_ H].
  now apply apply_stores_length in H.
Qed.

Lemma load_line_not_OutOfFuel (buf : list ascii) (addr : Z) (m : list Z) :
  Z.of_nat (length m) < 2 ^ 31 -> load_line buf addr m <> OutOfFuel.
Proof.
  intros Hsz. unfold load_line. destruct buf as [|c after]; [done|].
  destruct (Ascii.eqb c "#" || Ascii.eqb c "/"); [done|].
  destruct (Ascii.eqb c "@").
  - destruct (strtol16 after) as [v rest]. apply load_words_fuel; lia.
  - apply load_words_fuel; lia.
Qed.

Lemma fgets_rest_le (room : nat) (file : list ascii) :
  (length (fgets room file).2 <= length file)%nat.
Proof.
  revert file. induction room as [|room IH]; intros file.
  - destruct file; simpl; lia.
  - destruct file as [|c file]; [simpl; lia|]. cbn [fgets].
    destruct (Ascii.eqb c nl); [simpl; lia|].
    specialize (IH file). destruct (fgets room file) as [l rest]. simpl in *. lia.
Qed.

Lemma fgets_rest (room : nat) (c : ascii) (file : list ascii) :
  (length (fgets (S room) (c :: file)).2 <= length file)%nat.
Proof.
  cbn [fgets]. destruct (Ascii.eqb c nl); [simpl; lia|].
  pose proof (fgets_rest_le room file).
  destruct (fgets room file) as [l rest]. simpl in *. lia.
Qed.

(** The loader always returns: the fuel of [load_program] is enough. *)
Lemma load_file_fuel (fuel : nat) (file : list ascii) (addr : Z) (m : list Z) :
  Z.of_nat (length m) < 2 ^ 31 ->
  (length file <= fuel)%nat ->
  load_file fuel file addr m <> OutOfFuel.
Proof.
  revert file addr m. induction fuel as [|fuel IH]; intros file addr m Hsz Hf.
  - destruct file; [done | simpl in Hf; lia].
  - destruct file as [|c file]; [done|]. cbn [load_file].
    pose proof (fgets_rest 254 c file) as Hrest.
    destruct (fgets 255 (c :: file)) as [buf rest]. simpl in Hrest, Hf.
    destruct (load_line (c_string buf) addr m) as [[addr' m']| |] eqn:E; simpl;
      [| done | now apply load_line_not_OutOfFuel in E].
    apply load_line_length in E. apply IH; rewrite ?E; lia.
Qed.

Lemma load_program_returns (cfg : Config) (file : list ascii) (m0 : list Z) :
  length m0 = Z.to_nat (mem_sz cfg) -> mem_sz cfg < 2 ^ 31 ->
  load_program cfg file m0 <> OutOfFuel.
Proof.
  intros Hlen Hsz. apply load_file_fuel; [|lia].
  unfold memset_zero. rewrite length_app, length_replicate, length_drop. lia.
Qed.

(** The writer always returns: the fuel of [write_slice] is enough. *)
Lemma write_words_fuel (fuel : nat) (addr end_ : Z) (m : list Z) (ftmp : FILE) :
  end_ - addr <= Z.of_nat fuel ->
  write_words fuel addr end_ m ftmp <> OutOfFuel.
Proof.
  revert addr ftmp. induction fuel as [|fuel IH]; intros addr ftmp Hf;
    cbn [write_words]; destruct (Z.ltb_spec addr end_); try done; [lia|].
  unfold arr_read.
  destruct (0 <=? addr); [|done].
  destruct (m !! Z.to_nat addr); [|done]. simpl.
  destruct (0 <=? addr + 1); [|done].
  destruct (m !! Z.to_nat (addr + 1)); [|done]. simpl.
  destruct (0 <=? addr + 2); [|done].
  destruct (m !! Z.to_nat (addr + 2)); [|done]. simpl.
  destruct (0 <=? addr + 3); [|done].
  destruct (m !! Z.to_nat (addr + 3)); [|done]. simpl.
  destruct ftmp; [|done]. apply IH. lia.
Qed.

(** * Further properties of the bench *)

(** ** The reset sequence and the trace *)

Section Trace.
Context {Core : Type}.
Variable eval : Vvproc_top Core -> Vvproc_top Core.
Implicit Type s : Sim Core.

Lemma reset_cycles_effect (n : nat) s :
  mem (Nat.iter n (reset_cycle eval) s) = mem s /\
  mem_rvalid_queue (Nat.iter n (reset_cycle eval) s) = mem_rvalid_queue s /\
  mem_rdata_queue (Nat.iter n (reset_cycle eval) s) = mem_rdata_queue s /\
  mem_err_queue (Nat.iter n (reset_cycle eval) s) = mem_err_queue s /\
  main_time (Nat.iter n (reset_cycle eval) s) = main_time s + Z.of_nat n /\
  exists rows,
    fcsv (Nat.iter n (reset_cycle eval) s) = fcsv s ++ rows /\ length rows = n.
Proof.
  induction n as [|n (Hm & Hv & Hd & He & Ht & rows & Hr & Hl)].
  - simpl. do 4 (split; [done|]). split; [lia|].
    exists []. now rewrite app_nil_r.
  - rewrite Nat.iter_succ. set (x := Nat.iter n (reset_cycle eval) s) in *.
    unfold reset_cycle, log_cycle, clock_edge, with_top. simpl.
    do 4 (split; [done|]). split; [lia|].
    eexists (rows ++ [_]). rewrite Hr, <- app_assoc, length_app. simpl.
    split; [done | lia].
Qed.

Lemma Done_inj {A : Type} (a b : A) : Done a = Done b -> a = b.
Proof. now intros [= ->]. Qed.

(** The reset sequence after the valid queue has been cleared. *)
Definition reset_tail s : Sim Core :=
  with_top
    (eval (set_rst_ni 1
       (top (Nat.iter 10 (reset_cycle eval)
               (with_top (set_rst_ni 0 (set_clk_i 0 (set_mem_rvalid_i 0 (top s)))) s)))))
    (Nat.iter 10 (reset_cycle eval)
       (with_top (set_rst_ni 0 (set_clk_i 0 (set_mem_rvalid_i 0 (top s)))) s)).

Lemma reset_dut_unfold (cfg : Config) s :
  reset_dut eval cfg s =
    rv ← clear_queue (Z.to_nat (mem_latency cfg)) 0 (mem_rvalid_queue s);
    Done (reset_tail (with_queues rv (mem_rdata_queue s) (mem_err_queue s) s)).
Proof. reflexivity. Qed.

Lemma reset_tail_effect s :
  mem (reset_tail s) = mem s /\
  mem_rvalid_queue (reset_tail s) = mem_rvalid_queue s /\
  mem_rdata_queue (reset_tail s) = mem_rdata_queue s /\
  mem_err_queue (reset_tail s) = mem_err_queue s /\
  main_time (reset_tail s) = main_time s + 10 /\
  (exists t, top (reset_tail s) = eval t) /\
  exists rows, fcsv (reset_tail s) = fcsv s ++ rows /\ length rows = 10%nat.
Proof.
  unfold reset_tail.
  pose proof (reset_cycles_effect 10
                (with_top (set_rst_ni 0 (set_clk_i 0 (set_mem_rvalid_i 0 (top s)))) s))
    as (Hm & Hv & Hd & He & Ht & rows & Hr & Hl).
  revert Hm Hv Hd He Ht Hr.
  generalize (Nat.iter 10 (reset_cycle eval)
                (with_top (set_rst_ni 0 (set_clk_i 0 (set_mem_rvalid_i 0 (top s)))) s)).
  intros x Hm Hv Hd He Ht Hr. simpl in *.
  do 4 (split; [done|]). split; [lia|]. split; eauto.
Qed.

Lemma reset_dut_Done (cfg : Config) s s' :
  reset_dut eval cfg s = Done s' ->
  clear_queue (Z.to_nat (mem_latency cfg)) 0 (mem_rvalid_queue s)
    = Done (mem_rvalid_queue s') /\
  mem s' = mem s /\
  mem_rdata_queue s' = mem_rdata_queue s /\
  mem_err_queue s' = mem_err_queue s /\
  main_time s' = main_time s + 10 /\
  (exists t, top s' = eval t) /\
  exists rows, fcsv s' = fcsv s ++ rows /\ length rows = 10%nat.
Proof.
  rewrite reset_dut_unfold. intros H. apply bind_Done in H as (rv & Hx & H).
  apply Done_inj in H. subst s'.
  destruct (reset_tail_effect (with_queues rv (mem_rdata_queue s) (mem_err_queue s) s))
    as (Hm & Hv & Hd & He & Ht & Htop & Hrows).
  rewrite Hm, Hv, Hd, He, Ht. simpl. auto 10.
Qed.

(** X1: the reset sequence completes when the valid queue has its allocated
    size; it leaves the valid queue all zero, does not touch the memory
    image, the data queue or the error queue, and writes exactly ten rows
    to the trace, one per reset cycle. *)
Theorem reset_sequence_effect (cfg : Config) s :
  length (mem_rvalid_queue s) = Z.to_nat (mem_latency cfg) ->
  exists s',
    reset_dut eval cfg s = Done s' /\
    mem_rvalid_queue s' = replicate (Z.to_nat (mem_latency cfg)) 0 /\
    mem s' = mem s /\
    mem_rdata_queue s' = mem_rdata_queue s /\
    mem_err_queue s' = mem_err_queue s /\
    main_time s' = main_time s + 10 /\
    exists rows, fcsv s' = fcsv s ++ rows /\ length rows = 10%nat.
Proof.
  intros Hlen.
  destruct (reset_dut eval cfg s) as [s'| |] eqn:E.
  - exists s'. split; [done|].
    apply reset_dut_Done in E as (Hc & Hm & Hd & He & Ht & _ & Hrows).
    rewrite clear_queue_all in Hc by done. injection Hc as <-. auto 10.
  - rewrite reset_dut_unfold, clear_queue_all in E by done. discriminate.
  - rewrite reset_dut_unfold, clear_queue_all in E by done. discriminate.
Qed.

Lemma cycle_trace (cfg : Config) s s' :
  cycle eval cfg s = Done s' ->
  fcsv s' = fcsv s ++ [(rst_ni (top s'), mem_req_o (top s'), mem_addr_o (top s'))].
Proof.
  unfold cycle. intros H. do 3 bind_inv H. injection H as <-.
  unfold fulfill in Hx0. bind_inv Hx0. injection Hx0 as <-.
  unfold advance in Hx1. bind_inv Hx1.
  destruct x0 as [[rv rd] er]. injection Hx1 as <-.
  apply drive_response_Done in Hx2 as (v & d & e & _ & _ & ->).
  apply mem_request_Done in Hx as (_ & _ & _ & _ & Hf & _).
  simpl. now rewrite Hf.
Qed.

Lemma sim_loop_trace (fuel : nat) (cfg : Config) (c : Z) s s' :
  sim_loop eval fuel cfg c s = Done s' ->
  exists rows,
    fcsv s' = fcsv s ++ rows /\
    Z.of_nat (length rows) = main_time s' - main_time s.
Proof.
  revert c s. induction fuel as [|fuel IH]; intros c s H; cbn [sim_loop] in H;
    destruct (c <? extra_cycles cfg); try discriminate.
  - injection H as <-. exists []. rewrite app_nil_r. simpl. split; [done | lia].
  - bind_inv H. apply IH in H as (rows & Hr & Hl).
    pose proof (cycle_trace _ _ _ Hx) as Hrow.
    apply cycle_Done in Hx as (s1 & s2 & _ & _ & _ & _ & Ht & _).
    eexists (_ :: rows). rewrite Hr, Hrow, <- app_assoc. split; [done|].
    cbn [length]. lia.
  - injection H as <-. exists []. rewrite app_nil_r. simpl. split; [done | lia].
Qed.

(** X2: the simulation of a program only appends to the trace, and it
    appends one row for every cycle it counts in [main_time], the ten reset
    cycles included: no cycle goes without its row. *)
Theorem trace_has_a_row_per_cycle (fuel : nat) (cfg : Config) s s' :
  simulate eval fuel cfg s = Done s' ->
  exists rows,
    fcsv s' = fcsv s ++ rows /\
    Z.of_nat (length rows) = main_time s' - main_time s /\
    (10 <= length rows)%nat.
Proof.
  unfold simulate. intros H. bind_inv H.
  apply reset_dut_Done in Hx as (_ & _ & _ & _ & Ht & _ & rows0 & Hr0 & Hl0).
  apply sim_loop_trace in H as (rows & Hr & Hl).
  exists (rows0 ++ rows). rewrite Hr, Hr0, <- app_assoc, length_app.
  split; [done|]. split; lia.
Qed.

(** X3: with [extra_cycles >= 1], a device that never shows a request to
    address 0 keeps the simulation loop running: no amount of fuel makes
    the loop return. *)
Theorem sim_loop_needs_end_request (cfg : Config) (fuel : nat) s s' :
  1 <= extra_cycles cfg ->
  (forall t, end_request (eval t) = false) ->
  sim_loop eval fuel cfg 0 s <> Done s'.
Proof.
  intros He Hnever. revert s. induction fuel as [|fuel IH]; intros s;
    cbn [sim_loop]; destruct (Z.ltb_spec 0 (extra_cycles cfg)); try lia; [done|].
  destruct (cycle eval cfg s) as [s1| |] eqn:E; simpl; [|done..].
  apply cycle_Done in E as (s2 & s3 & _ & _ & _ & _ & _ & Ht).
  unfold next_end_cnt. rewrite Ht, Hnever. simpl. apply IH.
Qed.

Lemma sim_loop_no_fault (fuel : nat) (cfg : Config) (c : Z) s (f : fault) :
  well_formed cfg -> allocated cfg s ->
  sim_loop eval fuel cfg c s <> Fault f.
Proof.
  intros Hwf. revert c s. induction fuel as [|fuel IH]; intros c s Hs;
    cbn [sim_loop]; destruct (c <? extra_cycles cfg); try done.
  destruct (cycle_total eval cfg s Hwf Hs) as (s1 & -> & Hs1). simpl. now apply IH.
Qed.

(** X4: with a well-formed configuration and buffers of their allocated
    sizes, the simulation of a program (reset sequence and loop) makes no
    access outside the memory image or the queues, whatever the device
    requests. *)
Theorem simulate_stays_in_bounds (fuel : nat) (cfg : Config) s (f : fault) :
  well_formed cfg -> allocated cfg s ->
  simulate eval fuel cfg s <> Fault f.
Proof.
  intros Hwf (Hm & Hv & Hd & He). unfold simulate.
  destruct (reset_dut eval cfg s) as [s0| |] eqn:E; simpl.
  - apply sim_loop_no_fault; [done|].
    apply reset_dut_Done in E as (Hc & Hm0 & Hd0 & He0 & _).
    rewrite clear_queue_all in Hc by done. injection Hc as Hc.
    unfold allocated. rewrite <- Hc, Hm0, Hd0, He0, length_replicate. auto.
  - rewrite reset_dut_unfold, clear_queue_all in E by done. discriminate.
  - done.
Qed.
End Trace.

(** Scripts of the scripted device that never write, and that never
    address 0. *)
Lemma stub_we_zero (script : list Stub.request) (t : Vvproc_top Stub.state) :
  Forall (fun r => Stub.we r = 0) script ->
  mem_we_o (Stub.eval script t) = 0.
Proof.
  intros Hs. unfold Stub.eval. destruct (core t) as [last k].
  destruct (rst_ni t =? 0); [reflexivity|].
  set (k' := if (last =? 0) && (clk_i t =? 1) then S k else k). simpl.
  destruct (script !! k') as [r|] eqn:E; simpl; [|reflexivity].
  apply (proj1 (Forall_forall _ _) Hs r). eapply list_elem_of_lookup_2, E.
Qed.

Lemma stub_never_ends (script : list Stub.request) (t : Vvproc_top Stub.state) :
  Forall (fun r => Stub.addr r <> 0) script ->
  end_request (Stub.eval script t) = false.
Proof.
  intros Hs. unfold Stub.eval. destruct (core t) as [last k].
  destruct (rst_ni t =? 0); [reflexivity|].
  set (k' := if (last =? 0) && (clk_i t =? 1) then S k else k).
  unfold end_request. simpl.
  destruct (script !! k') as [r|] eqn:E; simpl; [|reflexivity].
  pose proof (proj1 (Forall_forall _ _) Hs r ltac:(eapply list_elem_of_lookup_2, E)).
  destruct (Z.eqb_spec (Stub.addr r) 0); [done | apply andb_false_r].
Qed.

Lemma reset_sequence_effect_witness :
  exists s',
    reset_dut (Stub.eval four_reads) (cfg_latency 2 1)
      (with_queues [1; 1] [5; 6] [0; 1] (Stub.bench Stub.power_on ramp16 [0; 0]))
      = Done s' /\
    mem_rvalid_queue s' = replicate (Z.to_nat (mem_latency (cfg_latency 2 1))) 0 /\
    mem s' = ramp16 /\
    mem_rdata_queue s' = [5; 6] /\
    mem_err_queue s' = [0; 1] /\
    main_time s' = 0 + 10 /\
    exists rows, fcsv s' = [] ++ rows /\ length rows = 10%nat.
Proof.
  exact (reset_sequence_effect (Stub.eval four_reads) (cfg_latency 2 1)
           (with_queues [1; 1] [5; 6] [0; 1] (Stub.bench Stub.power_on ramp16 [0; 0]))
           ltac:(reflexivity)).
Defined.

Definition after_simulate {Core : Type} (eval : Vvproc_top Core -> Vvproc_top Core)
    (fuel : nat) (cfg : Config) (s : Sim Core) : Sim Core :=
  match simulate eval fuel cfg s with
  | Done s' => s'
  | _ => s
  end.

Lemma simulate_four_reads :
  simulate (Stub.eval four_reads) 20 (cfg_latency 2 1)
      (Stub.bench Stub.power_on ramp16 [0; 0])
    = Done (after_simulate (Stub.eval four_reads) 20 (cfg_latency 2 1)
              (Stub.bench Stub.power_on ramp16 [0; 0])).
Proof. vm_compute. reflexivity. Qed.

Lemma trace_has_a_row_per_cycle_witness :
  exists rows,
    fcsv (after_simulate (Stub.eval four_reads) 20 (cfg_latency 2 1)
            (Stub.bench Stub.power_on ramp16 [0; 0]))
      = fcsv (Stub.bench Stub.power_on ramp16 [0; 0]) ++ rows /\
    Z.of_nat (length rows)
      = main_time (after_simulate (Stub.eval four_reads) 20 (cfg_latency 2 1)
                     (Stub.bench Stub.power_on ramp16 [0; 0]))
        - main_time (Stub.bench Stub.power_on ramp16 [0; 0]) /\
    (10 <= length rows)%nat.
Proof.
  exact (trace_has_a_row_per_cycle (Stub.eval four_reads) 20 (cfg_latency 2 1)
           _ _ simulate_four_reads).
Defined.

Lemma sim_loop_needs_end_request_witness :
  sim_loop (Stub.eval [Stub.read 4; Stub.read 8]) 50 (cfg_latency 2 1) 0
      (Stub.started [Stub.read 4; Stub.read 8] ramp16 [0; 0])
    <> Done (Stub.started [Stub.read 4; Stub.read 8] ramp16 [0; 0]).
Proof.
  apply sim_loop_needs_end_request.
  - simpl. lia.
  - intros t. apply stub_never_ends.
    repeat (constructor; [simpl; lia|]). constructor.
Defined.

Lemma simulate_stays_in_bounds_witness :
  simulate (Stub.eval four_reads) 20 (cfg_latency 2 1)
      (Stub.bench Stub.power_on ramp16 [0; 0])
    <> Fault OutOfBounds.
Proof.
  apply simulate_stays_in_bounds.
  - apply cfg_latency_well_formed. lia.
  - repeat split; reflexivity.
Defined.

(** ** The address of a request *)

(** X5: for a bus of [2^k] bytes the address that a pass uses is the
    requested address reduced modulo the memory size and then rounded down
    to a multiple of the bus width; the bit mask of the source computes
    that rounding. *)
Theorem request_addr_rounds_down {Core : Type} (cfg : Config)
    (t : Vvproc_top Core) (k : Z) :
  0 <= k -> bus_bytes cfg = 2 ^ k -> 0 < mem_sz cfg < 2 ^ 31 ->
  request_addr cfg t =
    mem_addr_o t mod mem_sz cfg - (mem_addr_o t mod mem_sz cfg) mod bus_bytes cfg.
Proof.
  intros Hk Hb Hsz. unfold request_addr.
  rewrite (to_uint_small (mem_sz cfg)) by lia.
  pose proof (Z.mod_pos_bound (mem_addr_o t) (mem_sz cfg) ltac:(lia)) as Hx.
  set (x := mem_addr_o t mod mem_sz cfg) in *.
  rewrite Hb, land_align_mask by lia.
  assert (0 < 2 ^ k) as Hp by (apply Z.pow_pos_nonneg; lia).
  assert (0 <= x / 2 ^ k) by (apply Z.div_pos; lia).
  assert (2 ^ k * (x / 2 ^ k) <= x) by (apply Z.mul_div_le; lia).
  rewrite to_int_small by lia. rewrite Z.mod_eq by lia. lia.
Qed.

Lemma request_addr_rounds_down_witness :
  request_addr (cfg_latency 1 1) (Stub.eval [Stub.read 22] (set_rst_ni 1 Stub.power_on))
  = mem_addr_o (Stub.eval [Stub.read 22] (set_rst_ni 1 Stub.power_on))
      mod mem_sz (cfg_latency 1 1)
    - (mem_addr_o (Stub.eval [Stub.read 22] (set_rst_ni 1 Stub.power_on))
         mod mem_sz (cfg_latency 1 1)) mod bus_bytes (cfg_latency 1 1).
Proof.
  apply (request_addr_rounds_down (cfg_latency 1 1) _ 2).
  - lia.
  - reflexivity.
  - simpl. lia.
Defined.

(** ** Responses after reset and end to end *)

Section Responses.
Context {Core : Type}.
Variable eval : Vvproc_top Core -> Vvproc_top Core.
Implicit Type s : Sim Core.








(** ** Runs without writes *)

Lemma sim_loop_reads_only (fuel : nat) (cfg : Config) (c : Z) s s' :
  (forall t, is_write (eval t) = false) ->
  is_write (top s) = false ->
  sim_loop eval fuel cfg c s = Done s' -> mem s' = mem s.
Proof.
  intros Hro. revert c s. induction fuel as [|fuel IH]; intros c s Hs H;
    cbn [sim_loop] in H; destruct (c <? extra_cycles cfg); try discriminate.
  - now apply Done_inj in H as <-.
  - bind_inv H. pose proof (cycle_mem _ _ _ _ Hx) as Hmem. rewrite Hs in Hmem.
    apply Done_inj in Hmem.
    apply cycle_Done in Hx as (s1 & s2 & _ & _ & _ & _ & _ & Ht).
    apply IH in H; [congruence | rewrite Ht; apply Hro].
  - now apply Done_inj in H as <-.
Qed.

Lemma simulate_reads_only (fuel : nat) (cfg : Config) s s' :
  (forall t, is_write (eval t) = false) ->
  simulate eval fuel cfg s = Done s' -> mem s' = mem s.
Proof.
  intros Hro H. unfold simulate in H. bind_inv H.
  apply reset_dut_Done in Hx as (_ & Hm & _ & _ & _ & (t & Ht) & _).
  apply sim_loop_reads_only in H; [congruence | done | rewrite Ht; apply Hro].
Qed.

(** X8: a simulation in which the device never shows a write request
    (never [mem_req_o] together with [mem_we_o]) leaves the whole memory
    image as it was. *)
Theorem simulate_without_writes (fuel : nat) (cfg : Config) s s' (j : nat) :
  (forall t, mem_req_o (eval t) = 0 \/ mem_we_o (eval t) = 0) ->
  simulate eval fuel cfg s = Done s' ->
  mem s' !! j = mem s !! j.
Proof.
  intros Hro H. rewrite (simulate_reads_only fuel cfg s s'); [done | | done].
  intros t. unfold is_write. destruct (Hro t) as [-> | ->]; simpl;
    [done | apply andb_false_r].
Qed.

Lemma write_slice_Done (fs : FileSystem) (path : string) (start end_ : Z)
    (h h' : Host Core) :
  write_slice fs path start end_ h = Done h' ->
  exists lines,
    write_words (Z.to_nat (end_ - start)) start end_ (mem (sim h)) (Some [])
      = Done (Some lines) /\
    sim h' = sim h /\
    written h' = written h ++ [(path, lines)] /\
    stderr h' = stderr h.
Proof.
  unfold write_slice, fopen_w. intros H.
  destruct (fs_writable fs path).
  - do 2 bind_inv H. apply Done_inj in H as <-.
    destruct x as [out|]; [|discriminate]. apply Done_inj in Hx0 as ->.
    exists x0. auto.
  - bind_inv H. bind_inv H. exfalso.
    assert (x = None) as ->; [|discriminate].
    revert Hx. generalize (Z.to_nat (end_ - start)). intros n.
    destruct n; cbn [write_words]; destruct (start <? end_); try discriminate;
      try (now intros [= <-]).
    intros H'. do 4 bind_inv H'. discriminate.
Qed.

(** X9: when the device makes no write request during the simulation of a
    program and the dump range is the reference range, the dump file
    written after the simulation has exactly the lines of the reference
    file written before it. *)
Theorem dump_equals_reference (fuel : nat) (fs : FileSystem) (cfg : Config)
    (d : Descriptor) (file : list ascii) (h h' : Host Core) :
  (forall t, mem_req_o (eval t) = 0 \/ mem_we_o (eval t) = 0) ->
  fs_read fs (prog_path d) = Some file ->
  dump_start d = ref_start d -> dump_end d = ref_end d ->
  run_program eval fuel fs cfg d h = Done h' ->
  exists lines,
    written h' = written h ++ [(ref_path d, lines); (dump_path d, lines)].
Proof.
  intros Hro Hfile Hs He H. unfold run_program in H. rewrite Hfile in H.
  do 3 bind_inv H.
  apply write_slice_Done in Hx0 as (ref & Href & Hsim & Hw & _).
  apply write_slice_Done in H as (dmp & Hdmp & _ & Hw' & _).
  simpl in *.
  assert (mem x1 = x) as Hmem.
  { rewrite (simulate_reads_only fuel cfg (sim x0) x1); [now rewrite Hsim | | done].
    intros t. unfold is_write. destruct (Hro t) as [-> | ->]; simpl;
      [done | apply andb_false_r]. }
  rewrite Hmem, Hs, He, Href in Hdmp. injection Hdmp as <-.
  exists ref. now rewrite Hw', Hw, <- app_assoc.
Qed.
End Responses.

(** The result of a run that completes (a default otherwise). *)
Definition result_or {A : Type} (o : outcome A) (d : A) : A :=
  match o with
  | Done a => a
  | _ => d
  end.






Lemma four_reads_never_write (t : Vvproc_top Stub.state) :
  mem_req_o (Stub.eval four_reads t) = 0 \/ mem_we_o (Stub.eval four_reads t) = 0.
Proof.
  right. apply stub_we_zero. repeat (constructor; [reflexivity|]). constructor.
Qed.

Lemma simulate_without_writes_witness :
  mem (after_simulate (Stub.eval four_reads) 20 (cfg_latency 2 1)
         (Stub.bench Stub.power_on ramp16 [0; 0])) !! 5%nat
    = mem (Stub.bench Stub.power_on ramp16 [0; 0]) !! 5%nat.
Proof.
  exact (simulate_without_writes (Stub.eval four_reads) 20 (cfg_latency 2 1) _ _ 5
           four_reads_never_write simulate_four_reads).
Defined.

Lemma run_program_a :
  run_program (Stub.eval four_reads) 20 two_programs (cfg_latency 2 1)
      (whole_image "a.vmem") (host0 [0; 0])
    = Done (result_or (run_program (Stub.eval four_reads) 20 two_programs
                         (cfg_latency 2 1) (whole_image "a.vmem") (host0 [0; 0]))
              (host0 [0; 0])).
Proof. vm_compute. reflexivity. Qed.

Lemma dump_equals_reference_witness :
  exists lines,
    written (result_or (run_program (Stub.eval four_reads) 20 two_programs
                          (cfg_latency 2 1) (whole_image "a.vmem") (host0 [0; 0]))
               (host0 [0; 0]))
    = written (host0 [0; 0])
      ++ [(ref_path (whole_image "a.vmem"), lines);
          (dump_path (whole_image "a.vmem"), lines)].
Proof.
  exact (dump_equals_reference (Stub.eval four_reads) 20 two_programs (cfg_latency 2 1)
           (whole_image "a.vmem") image_a (host0 [0; 0]) _ four_reads_never_write
           ltac:(reflexivity) ltac:(reflexivity) ltac:(reflexivity) run_program_a).
Defined.

(** ** Length of a simulation *)

Section Length.
Context {Core : Type}.
Variable eval : Vvproc_top Core -> Vvproc_top Core.
Implicit Type s : Sim Core.

Lemma sim_loop_counts (fuel : nat) (cfg : Config) (c : Z) s s' :
  sim_loop eval fuel cfg c s = Done s' ->
  extra_cycles cfg - c <= main_time s' - main_time s.
Proof.
  revert c s. induction fuel as [|fuel IH]; intros c s H; cbn [sim_loop] in H;
    destruct (Z.ltb_spec c (extra_cycles cfg)); try discriminate.
  - apply Done_inj in H as <-. lia.
  - bind_inv H. apply IH in H.
    apply cycle_Done in Hx as (s1 & s2 & _ & _ & _ & _ & Ht & _).
    unfold next_end_cnt in H.
    destruct ((0 <? c) || end_request (top x)); lia.
  - apply Done_inj in H as <-. lia.
Qed.

(** X10: a simulation that returns has lasted at least the ten reset cycles
    and [extra_cycles] further cycles: the counter goes up by at most one
    per cycle, and the loop only ends when it has reached [extra_cycles]. *)
Theorem simulate_lasts_extra_cycles (fuel : nat) (cfg : Config) s s' :
  simulate eval fuel cfg s = Done s' ->
  10 + extra_cycles cfg <= main_time s' - main_time s.
Proof.
  unfold simulate. intros H. bind_inv H.
  apply reset_dut_Done in Hx as (_ & _ & _ & _ & Ht & _).
  apply sim_loop_counts in H. lia.
Qed.
End Length.

Lemma simulate_lasts_extra_cycles_witness :
  10 + extra_cycles (cfg_latency 2 1)
    <= main_time (after_simulate (Stub.eval four_reads) 20 (cfg_latency 2 1)
                    (Stub.bench Stub.power_on ramp16 [0; 0]))
       - main_time (Stub.bench Stub.power_on ramp16 [0; 0]).
Proof.
  exact (simulate_lasts_extra_cycles (Stub.eval four_reads) 20 (cfg_latency 2 1)
           _ _ simulate_four_reads).
Defined.

(** ** Bounds of the writer *)

Lemma arr_read_cases (m : list Z) (i : Z) :
  (0 <= i < Z.of_nat (length m) /\ exists v, arr_read m i = Done v) \/
  (~ 0 <= i < Z.of_nat (length m) /\ arr_read m i = Fault OutOfBounds).
Proof.
  unfold arr_read. destruct (Z.leb_spec 0 i); [|right; split; [lia | done]].
  destruct (m !! Z.to_nat i) eqn:E.
  - left. apply lookup_lt_Some in E. split; [lia | eauto].
  - right. apply lookup_ge_None in E. split; [lia | done].
Qed.

(** X11: the writer rounds its range up to whole words.  For a non-empty
    range [start, end) on an open file it completes exactly when the bytes
    [start .. start + 4 * ceil((end - start) / 4) - 1] lie inside the
    image, and otherwise it reads outside the image; an empty range writes
    nothing and reads nothing. *)
Theorem write_words_bounds (fuel : nat) (start end_ : Z) (m : list Z)
    (out : list (list ascii)) :
  end_ - start <= Z.of_nat fuel ->
  (end_ <= start -> write_words fuel start end_ m (Some out) = Done (Some out)) /\
  (start < end_ ->
   0 <= start /\ start + 4 * ((end_ - start + 3) / 4) <= Z.of_nat (length m) ->
   exists lines, write_words fuel start end_ m (Some out) = Done (Some (out ++ lines))) /\
  (start < end_ ->
   ~ (0 <= start /\ start + 4 * ((end_ - start + 3) / 4) <= Z.of_nat (length m)) ->
   write_words fuel start end_ m (Some out) = Fault OutOfBounds).
Proof.
  revert start out. induction fuel as [|fuel IH]; intros start out Hf.
  - cbn [write_words]. destruct (Z.ltb_spec start end_); [lia|].
    split; [done|]. split; intros; lia.
  - cbn [write_words]. destruct (Z.ltb_spec start end_) as [Hlt|Hge];
      [|split; [done|]; split; intros; lia].
    split; [intros; lia|].
    assert ((end_ - start + 3) / 4 = 1 /\ end_ <= start + 4 \/
            (end_ - start + 3) / 4 = (end_ - (start + 4) + 3) / 4 + 1 /\ start + 4 < end_)
      as Hn.
    { destruct (Z.le_gt_cases end_ (start + 4)).
      - left. split; [|done].
        symmetry. apply (Z.div_unique _ 4 1 (end_ - start - 1)); lia.
      - right. split; [|done].
        replace (end_ - start + 3) with (end_ - (start + 4) + 3 + 1 * 4) by lia.
        now rewrite Z.div_add by lia. }
    assert (0 <= (end_ - (start + 4) + 3) / 4 \/ end_ <= start + 4) as Hq.
    { destruct (Z.le_gt_cases end_ (start + 4)); [now right|].
      left. apply Z.div_pos; lia. }
    destruct (arr_read_cases m start) as [[H0 [b0 ->]]|[H0 ->]]; simpl;
      [|split; [intros _ ?; lia | done]].
    destruct (arr_read_cases m (start + 1)) as [[H1 [b1 ->]]|[H1 ->]]; simpl;
      [|split; [intros _ ?; lia | done]].
    destruct (arr_read_cases m (start + 2)) as [[H2 [b2 ->]]|[H2 ->]]; simpl;
      [|split; [intros _ ?; lia | done]].
    destruct (arr_read_cases m (start + 3)) as [[H3 [b3 ->]]|[H3 ->]]; simpl;
      [|split; [intros _ ?; lia | done]].
    match goal with
    | |- context [write_words fuel (start + 4) end_ m (Some ?o)] =>
        destruct (IH (start + 4) o ltac:(lia)) as (IH1 & IH2 & IH3)
    end.
    split.
    + intros _ Hin. destruct Hn as [[Hn Hend]|[Hn Hmore]].
      * rewrite IH1 by lia. eexists [_]. reflexivity.
      * destruct (IH2 Hmore ltac:(lia)) as (lines & ->).
        eexists (_ :: lines). now rewrite <- app_assoc.
    + intros _ Hout. destruct Hn as [[Hn Hend]|[Hn Hmore]]; [lia|].
      apply IH3; [done | lia].
Qed.

Lemma write_words_bounds_witness :
  exists lines,
    write_words 14 0 14 ramp16 (Some []) = Done (Some ([] ++ lines)).
Proof.
  apply (proj1 (proj2 (write_words_bounds 14 0 14 ramp16 [] ltac:(simpl; lia)))).
  - lia.
  - vm_compute. split; discriminate.
Defined.

(** ** Loading twice *)

(** X12: loading is idempotent.  The image that a load leaves is the image
    that loading the same text again leaves, whatever the buffer held: the
    loader zero-fills the whole image first. *)
Theorem load_program_idempotent (cfg : Config) (file : list ascii) (m0 m : list Z) :
  length m0 = Z.to_nat (mem_sz cfg) ->
  load_program cfg file m0 = Done m ->
  load_program cfg file m = Done m.
Proof.
  intros Hlen H. pose proof H as H'. unfold load_program in *.
  assert (memset_zero m0 (mem_sz cfg) = replicate (Z.to_nat (mem_sz cfg)) 0) as Hz.
  { unfold memset_zero. rewrite drop_ge by lia. apply app_nil_r. }
  rewrite Hz in H'. apply load_file_stores, apply_stores_length in H'.
  rewrite length_replicate in H'.
  assert (memset_zero m (mem_sz cfg) = replicate (Z.to_nat (mem_sz cfg)) 0) as Hz'.
  { unfold memset_zero. rewrite drop_ge by lia. apply app_nil_r. }
  now rewrite Hz', <- Hz.
Qed.

Lemma load_program_idempotent_witness :
  load_program (cfg_latency 1 1) two_words
      [0; 0; 0; 0; 239; 190; 173; 222; 120; 86; 52; 18; 0; 0; 0; 0]
    = Done [0; 0; 0; 0; 239; 190; 173; 222; 120; 86; 52; 18; 0; 0; 0; 0].
Proof.
  apply (load_program_idempotent (cfg_latency 1 1) two_words ramp16).
  - reflexivity.
  - vm_compute. reflexivity.
Defined.

(** ** Programs that cannot be read *)

#[global] Instance outcome_fmap : FMap outcome := fun A B f m =>
  match m with
  | Done a => Done (f a)
  | Fault e => Fault e
  | OutOfFuel => OutOfFuel
  end.

Section Unreadable.
Context {Core : Type}.
Variable eval : Vvproc_top Core -> Vvproc_top Core.
Implicit Type h : Host Core.

(** What a batch leaves besides its messages: the bench and the files. *)
Definition outputs h : Sim Core * list (string * list (list ascii)) :=
  (sim h, written h).

Definition readable (fs : FileSystem) (d : Descriptor) : bool :=
  match fs_read fs (prog_path d) with
  | Some _ => true
  | None => false
  end.

Lemma run_program_outputs (fuel : nat) (fs : FileSystem) (cfg : Config)
    (d : Descriptor) h1 h2 :
  outputs h1 = outputs h2 ->
  outputs <$> run_program eval fuel fs cfg d h1
    = outputs <$> run_program eval fuel fs cfg d h2.
Proof.
  destruct h1 as [s1 w1 e1], h2 as [s2 w2 e2]. unfold outputs. simpl.
  intros [= <- <-]. unfold run_program. simpl.
  destruct (fs_read fs (prog_path d)) as [file|]; [|done].
  destruct (load_program cfg file (mem s1)) as [m| |]; simpl; [|done..].
  unfold write_slice at 2 4. simpl.
  destruct (write_words _ (ref_start d) (ref_end d) m _) as [out| |]; simpl; [|done..].
  destruct (fclose out) as [lines| |]; simpl; [|done..].
  destruct (simulate eval fuel cfg (with_mem m s1)) as [s'| |]; simpl; [|done..].
  unfold write_slice. simpl.
  destruct (write_words _ (dump_start d) (dump_end d) (mem s') _) as [out'| |];
    simpl; [|done..].
  destruct (fclose out') as [lines'| |]; simpl; done.
Qed.

Lemma files_outputs (fs : FileSystem) h1 h2 :
  outputs h1 = outputs h2 -> files fs h1 = files fs h2.
Proof. unfold outputs, files. now intros [= _ ->]. Qed.

Lemma run_batch_outputs (fuel : nat) (fs : FileSystem) (cfg : Config)
    (ds : list Descriptor) h1 h2 :
  outputs h1 = outputs h2 ->
  outputs <$> run_batch eval fuel fs cfg ds h1
    = outputs <$> run_batch eval fuel fs cfg ds h2.
Proof.
  revert h1 h2. induction ds as [|d ds IH]; intros h1 h2 Hh.
  - simpl. now rewrite Hh.
  - cbn [run_batch]. rewrite (files_outputs fs h1 h2 Hh).
    pose proof (run_program_outputs fuel (files fs h2) cfg d h1 h2 Hh) as Hd.
    destruct (run_program eval fuel (files fs h2) cfg d h1) as [h1'| |],
             (run_program eval fuel (files fs h2) cfg d h2) as [h2'| |];
      simpl in *; try discriminate; try done.
    apply IH. congruence.
Qed.

(** A path that the host has not written holds what it held at the start. *)
Lemma fs_read_files (fs : FileSystem) h (p : string) :
  p ∉ (written h).*1 -> fs_read (files fs h) p = fs_read fs p.
Proof.
  unfold files. generalize (written h). intros ws. revert fs.
  induction ws as [|[q lines] ws IH]; intros fs Hp; [done|].
  cbn [fold_left]. rewrite fmap_cons, not_elem_of_cons in Hp.
  destruct Hp as [Hq Hp]. rewrite IH by done. simpl.
  destruct (String.eqb_spec p q); [contradiction | done].
Qed.

(** The paths that one program writes. *)
Lemma run_program_written (fuel : nat) (fs : FileSystem) (cfg : Config)
    (d : Descriptor) h h' :
  run_program eval fuel fs cfg d h = Done h' ->
  forall p, p ∈ (written h').*1 ->
    p ∈ (written h).*1 \/ p = ref_path d \/ p = dump_path d.
Proof.
  unfold run_program. intros H p Hp.
  destruct (fs_read fs (prog_path d)) as [file|].
  - do 3 bind_inv H.
    apply write_slice_Done in Hx0 as (l1 & _ & _ & Hw1 & _).
    apply write_slice_Done in H as (l2 & _ & _ & Hw2 & _).
    simpl in Hw1, Hw2. rewrite Hw2, Hw1, !fmap_app in Hp. simpl in Hp.
    rewrite !elem_of_app, !list_elem_of_singleton in Hp. tauto.
  - apply Done_inj in H. subst h'. now left.
Qed.

(** X13: a program whose file cannot be opened is skipped without a trace
    in the results.  In a batch none of whose program files is an output
    file of the batch (or a file that the host has written before), the
    bench and the output files that the batch leaves are those of the batch
    without the programs whose files cannot be opened; only the messages
    on [stderr] differ. *)
Theorem batch_without_unreadable (fuel : nat) (fs : FileSystem) (cfg : Config)
    (ds : list Descriptor) h :
  (forall d, d ∈ ds -> prog_path d ∉ (written h).*1) ->
  (forall d d', d ∈ ds -> d' ∈ ds ->
     prog_path d <> ref_path d' /\ prog_path d <> dump_path d') ->
  outputs <$> run_batch eval fuel fs cfg ds h
    = outputs <$> run_batch eval fuel fs cfg (List.filter (readable fs) ds) h.
Proof.
  revert h. induction ds as [|d ds IH]; intros h Hw Hio; [done|].
  pose proof (fs_read_files fs h (prog_path d) (Hw d ltac:(left))) as Hread.
  assert (forall d1 d', d1 ∈ ds -> d' ∈ ds ->
            prog_path d1 <> ref_path d' /\ prog_path d1 <> dump_path d') as Hio'.
  { intros d1 d' H1 H'. apply Hio; now right. }
  cbn [List.filter]. destruct (readable fs d) eqn:E; cbn [run_batch].
  - destruct (run_program eval fuel (files fs h) cfg d h) as [h'| |] eqn:Erun;
      simpl; [|done..].
    apply IH; [|exact Hio'].
    intros d1 H1 Hin.
    destruct (run_program_written _ _ _ _ _ _ Erun _ Hin) as [Hold|[Href|Hdump]].
    + exact (Hw d1 ltac:(now right) Hold).
    + exact (proj1 (Hio d1 d ltac:(now right) ltac:(left)) Href).
    + exact (proj2 (Hio d1 d ltac:(now right) ltac:(left)) Hdump).
  - unfold readable in E. unfold run_program. rewrite Hread.
    destruct (fs_read fs (prog_path d)); [discriminate|]. simpl.
    rewrite <- IH; [now apply run_batch_outputs | | exact Hio'].
    intros d1 H1. apply Hw. now right.
Qed.
End Unreadable.

(** A batch whose second program has no file. *)
Definition batch_a_c_b : list Descriptor :=
  [whole_image "a.vmem"; whole_image "c.vmem"; whole_image "b.vmem"].

Lemma batch_without_unreadable_witness :
  outputs <$> run_batch (Stub.eval four_reads) 20 two_programs (cfg_latency 2 1)
                batch_a_c_b (host0 [0; 0])
    = outputs <$> run_batch (Stub.eval four_reads) 20 two_programs (cfg_latency 2 1)
                    (List.filter (readable two_programs) batch_a_c_b) (host0 [0; 0]).
Proof.
  apply batch_without_unreadable.
  - intros d _. simpl. apply not_elem_of_nil.
  - intros d d' Hd Hd'. unfold batch_a_c_b in Hd, Hd'.
    repeat (apply elem_of_cons in Hd as [->|Hd]);
      try (now apply not_elem_of_nil in Hd);
      repeat (apply elem_of_cons in Hd' as [->|Hd']);
      try (now apply not_elem_of_nil in Hd');
      split; discriminate.
Defined.

(** A program finds the dump of the program before it: the second program
    of this batch loads the file that the first has dumped, and both write
    their two files. *)
Definition dump_to (prog out : string) : Descriptor :=
  {| prog_path := prog; ref_path := "ref.txt"; ref_start := 0; ref_end := 16;
     dump_path := out; dump_start := 0; dump_end := 16 |}.

Example batch_reads_back_its_dump :
  fs_read two_programs "c.vmem" = None /\
  (fun h => (written h).*1)
    <$> run_batch (Stub.eval four_reads) 20 two_programs (cfg_latency 2 1)
          [dump_to "a.vmem" "c.vmem"; dump_to "c.vmem" "d.vmem"] (host0 [0; 0])
    = Done ["ref.txt"%string; "c.vmem"%string; "ref.txt"%string; "d.vmem"%string]
  /\ stderr <$> run_batch (Stub.eval four_reads) 20 two_programs (cfg_latency 2 1)
                  [dump_to "a.vmem" "c.vmem"; dump_to "c.vmem" "d.vmem"]
                  (host0 [0; 0])
     = Done [].
Proof. repeat split; vm_compute; reflexivity. Qed.

(** * The command line (lines 15-43)

    [main] takes the bus width, the memory size, the latency and the number
    of extra cycles from [argv[2..5]] with [strtol] in base 10, and leaves
    with exit code 1 when the argument count or one of them is refused. *)

Definition dec_digit (c : ascii) : option Z :=
  let n := char_code c in
  if (48 <=? n) && (n <=? 57) then Some (n - 48) else None.

Definition starts_dec (s : list ascii) : bool :=
  match s with
  | c :: _ => match dec_digit c with Some _ => true | None => false end
  | [] => false
  end.

Fixpoint scan_dec (acc : Z) (s : list ascii) : Z * list ascii :=
  match s with
  | c :: s' =>
      match dec_digit c with
      | Some d => scan_dec (acc * 10 + d) s'
      | None => (acc, s)
      end
  | [] => (acc, [])
  end.

(** [strtol(s, &end, 10)]: the value and the end pointer. *)
Definition strtol10 (s : list ascii) : Z * list ascii :=
  let s1 := skip_while isspace s in
  let '(neg, s2) :=
    match s1 with
    | c :: r =>
        if Ascii.eqb c "-"%char then (true, r)
        else if Ascii.eqb c "+"%char then (false, r)
        else (false, s1)
    | [] => (false, s1)
    end in
  if starts_dec s2 then
    let '(v, rest) := scan_dec 0 s2 in
    (clamp_long (if neg then - v else v), rest)
  else (0, s).

(** [*endptr != 0] *)
Definition not_at_end (endptr : list ascii) : bool :=
  match endptr with
  | [] => false
  | _ :: _ => true
  end.

(** The argument checks of [main]: the exit code, or the configuration
    with which [main] goes on.  [argv] holds [argc] strings. *)
Definition parse_args (argv : list (list ascii)) : Z + Config :=
  if negb (Nat.eqb (length argv) 7) && negb (Nat.eqb (length argv) 8) then inl 1
  else
    let '(w, end_w) := strtol10 (default [] (argv !! 2%nat)) in
    if (to_int w =? 0) || not_at_end end_w then inl 1
    else
      let '(sz, end_sz) := strtol10 (default [] (argv !! 3%nat)) in
      if (to_int sz =? 0) || not_at_end end_sz then inl 1
      else
        let '(l, end_l) := strtol10 (default [] (argv !! 4%nat)) in
        if not_at_end end_l then inl 1
        else
          let '(e, end_e) := strtol10 (default [] (argv !! 5%nat)) in
          if not_at_end end_e then inl 1
          else inr {| mem_w := to_int w; mem_sz := to_int sz;
                      mem_latency := to_int l; extra_cycles := to_int e |}.

(** A numeral: the characters of a list of decimal digits, and its value. *)
Definition digit_char (d : Z) : ascii := ascii_of_N (Z.to_N (48 + d)).

Definition numeral (ds : list Z) : list ascii := map digit_char ds.

Definition numeral_value (ds : list Z) : Z :=
  fold_left (fun a d => a * 10 + d) ds 0.

Definition is_digit (d : Z) : Prop := 0 <= d <= 9.

Lemma digit_char_plain (d : Z) :
  is_digit d ->
  dec_digit (digit_char d) = Some d /\
  isspace (digit_char d) = false /\
  Ascii.eqb (digit_char d) "-" = false /\
  Ascii.eqb (digit_char d) "+" = false.
Proof.
  unfold is_digit. intros H.
  assert (d = 0 \/ d = 1 \/ d = 2 \/ d = 3 \/ d = 4 \/ d = 5 \/ d = 6 \/ d = 7 \/
          d = 8 \/ d = 9) as Hd by lia.
  repeat (destruct Hd as [->|Hd]; [vm_compute; auto|]).
  subst d. vm_compute. auto.
Qed.

Lemma scan_dec_numeral (ds : list Z) (acc : Z) :
  Forall is_digit ds ->
  scan_dec acc (numeral ds) = (fold_left (fun a d => a * 10 + d) ds acc, []).
Proof.
  intros H. revert acc. induction H as [|d ds Hd _ IH]; intros acc; [done|].
  cbn [numeral map scan_dec fold_left].
  destruct (digit_char_plain d Hd) as (-> & _). apply IH.
Qed.

Lemma numeral_value_nonneg (ds : list Z) (acc : Z) :
  Forall is_digit ds -> 0 <= acc ->
  0 <= fold_left (fun a d => a * 10 + d) ds acc.
Proof.
  intros H. revert acc. induction H as [|d ds Hd _ IH]; intros acc Hacc; [done|].
  cbn [fold_left]. apply IH. unfold is_digit in Hd. lia.
Qed.

Lemma strtol10_numeral (ds : list Z) :
  Forall is_digit ds -> numeral_value ds < 2 ^ 63 ->
  strtol10 (numeral ds) = (numeral_value ds, []).
Proof.
  intros H Hv. destruct H as [|d ds Hd Hds]; [reflexivity|].
  pose proof (numeral_value_nonneg (d :: ds) 0 (Forall_cons_2 _ _ _ Hd Hds) ltac:(lia))
    as Hpos.
  fold (numeral_value (d :: ds)) in Hpos.
  unfold strtol10. cbn [numeral map skip_while].
  destruct (digit_char_plain d Hd) as (Hdig & -> & -> & ->).
  cbn [starts_dec]. rewrite Hdig.
  change (digit_char d :: map digit_char ds) with (numeral (d :: ds)).
  rewrite scan_dec_numeral by (constructor; done).
  fold (numeral_value (d :: ds)). f_equal. unfold clamp_long.
  destruct (Z.ltb_spec (2 ^ 63 - 1) (numeral_value (d :: ds))); [lia|].
  destruct (Z.ltb_spec (numeral_value (d :: ds)) (- 2 ^ 63)); [lia | done].
Qed.

(** X14: the argument checks on plain numerals.  With seven arguments
    whose four numbers are strings of decimal digits with values below
    [2^31], [main] leaves with exit code 1 when the bus width or the memory
    size is 0 (an empty string counts as 0), and otherwise goes on with
    exactly these four values; a latency or a number of extra cycles of 0
    is accepted. *)
Theorem parse_args_numerals (prog progs trace : list ascii) (W S L E : list Z) :
  Forall is_digit W -> Forall is_digit S -> Forall is_digit L -> Forall is_digit E ->
  numeral_value W < 2 ^ 31 -> numeral_value S < 2 ^ 31 ->
  numeral_value L < 2 ^ 31 -> numeral_value E < 2 ^ 31 ->
  parse_args [prog; progs; numeral W; numeral S; numeral L; numeral E; trace]
    = if (numeral_value W =? 0) || (numeral_value S =? 0) then inl 1
      else inr {| mem_w := numeral_value W; mem_sz := numeral_value S;
                  mem_latency := numeral_value L;
                  extra_cycles := numeral_value E |}.
Proof.
  intros HW HS HL HE VW VS VL VE.
  pose proof (numeral_value_nonneg W 0 HW ltac:(lia)) as PW.
  pose proof (numeral_value_nonneg S 0 HS ltac:(lia)) as PS.
  pose proof (numeral_value_nonneg L 0 HL ltac:(lia)) as PL.
  pose proof (numeral_value_nonneg E 0 HE ltac:(lia)) as PE.
  fold (numeral_value W) in PW. fold (numeral_value S) in PS.
  fold (numeral_value L) in PL. fold (numeral_value E) in PE.
  unfold parse_args.
  change (default [] ([prog; progs; numeral W; numeral S; numeral L; numeral E; trace]
                        !! 2%nat)) with (numeral W).
  change (default [] ([prog; progs; numeral W; numeral S; numeral L; numeral E; trace]
                        !! 3%nat)) with (numeral S).
  change (default [] ([prog; progs; numeral W; numeral S; numeral L; numeral E; trace]
                        !! 4%nat)) with (numeral L).
  change (default [] ([prog; progs; numeral W; numeral S; numeral L; numeral E; trace]
                        !! 5%nat)) with (numeral E).
  cbn [length Nat.eqb negb andb].
  rewrite !strtol10_numeral by (done || lia).
  rewrite !to_int_small by lia. cbn [not_at_end]. rewrite !orb_false_r.
  destruct (numeral_value W =? 0); [done|].
  destruct (numeral_value S =? 0); done.
Qed.

Lemma parse_args_numerals_witness :
  parse_args [text "sim"; text "progs.txt"; numeral [3; 2]; numeral [4; 0; 9; 6];
              numeral [0]; numeral [5]; text "trace.csv"]
    = if (numeral_value [3; 2] =? 0) || (numeral_value [4; 0; 9; 6] =? 0) then inl 1
      else inr {| mem_w := numeral_value [3; 2]; mem_sz := numeral_value [4; 0; 9; 6];
                  mem_latency := numeral_value [0];
                  extra_cycles := numeral_value [5] |}.
Proof.
  apply parse_args_numerals;
    try (repeat (constructor; [unfold is_digit; lia|]); constructor);
    vm_compute; reflexivity.
Defined.

(** X15: the outcomes of the argument checks.  Whatever the command line,
    [main] either leaves with exit code 1 or goes on with a configuration
    whose bus width and memory size are not 0, taken from seven or eight
    arguments. *)
Theorem parse_args_cases (argv : list (list ascii)) :
  parse_args argv = inl 1 \/
  exists cfg, parse_args argv = inr cfg /\
    (length argv = 7 \/ length argv = 8)%nat /\
    mem_w cfg <> 0 /\ mem_sz cfg <> 0.
Proof.
  unfold parse_args.
  destruct (Nat.eqb_spec (length argv) 7) as [H7|H7];
    destruct (Nat.eqb_spec (length argv) 8) as [H8|H8]; cbn [negb andb];
    try (now left);
    (destruct (strtol10 (default [] (argv !! 2%nat))) as [w end_w];
     destruct (Z.eqb_spec (to_int w) 0) as [|Hw]; [now left|];
     destruct (not_at_end end_w); [now left|]; cbn [orb];
     destruct (strtol10 (default [] (argv !! 3%nat))) as [sz end_sz];
     destruct (Z.eqb_spec (to_int sz) 0) as [|Hs]; [now left|];
     destruct (not_at_end end_sz); [now left|]; cbn [orb];
     destruct (strtol10 (default [] (argv !! 4%nat))) as [l end_l];
     destruct (not_at_end end_l); [now left|];
     destruct (strtol10 (default [] (argv !! 5%nat))) as [e end_e];
     destruct (not_at_end end_e); [now left|];
     right; eexists; split; [reflexivity|]; simpl; auto).
Qed.

(** * Reading a dump back with the loader (lines 99-120 on a file of 200-211)

    A dump or reference file is itself a program text for the loader: one
    word of eight hexadecimal digits per line. *)

Lemma hex_value_plain (c : ascii) (d : Z) :
  hex_value c = Some d ->
  0 <= d < 16 /\
  Ascii.eqb c nl = false /\ Ascii.eqb c nul = false /\
  Ascii.eqb c "#" = false /\ Ascii.eqb c "/" = false /\ Ascii.eqb c "@" = false /\
  isspace c = false /\ Ascii.eqb c "-" = false /\ Ascii.eqb c "+" = false /\
  Ascii.eqb c "x" = false /\ Ascii.eqb c "X" = false.
Proof.
  intros H.
  destruct c as [[] [] [] [] [] [] [] []]; vm_compute in H; try discriminate H;
    injection H as <-; (split; [lia|]); vm_compute; auto 12.
Qed.

Lemma parse_hex_range (l : list ascii) (acc v : Z) :
  parse_hex acc l = Some v -> 0 <= acc ->
  0 <= v < (acc + 1) * 16 ^ Z.of_nat (length l).
Proof.
  revert acc. induction l as [|c l IH]; intros acc H Hacc.
  - injection H as <-. simpl. lia.
  - cbn [parse_hex] in H. destruct (hex_value c) as [d|] eqn:E; [|discriminate].
    apply hex_value_plain in E as (Hd & _).
    apply IH in H; [|lia]. cbn [length]. rewrite Nat2Z.inj_succ, Z.pow_succ_r by lia.
    assert (0 < 16 ^ Z.of_nat (length l)) by (apply Z.pow_pos_nonneg; lia).
    nia.
Qed.

Lemma parse_hex8_range (l : list ascii) (u : Z) :
  parse_hex8 l = Some u -> length l = 8%nat /\ 0 <= u < 2 ^ 32.
Proof.
  unfold parse_hex8. destruct (Nat.eqb_spec (length l) 8) as [Hl|]; [|discriminate].
  intros H. split; [done|]. apply parse_hex_range in H; [|lia].
  rewrite Hl in H. change ((0 + 1) * 16 ^ Z.of_nat 8) with (2 ^ 32) in H. done.
Qed.

Lemma scan_hex_line (l : list ascii) (acc v : Z) (r : list ascii) :
  parse_hex acc l = Some v -> scan_hex acc (l ++ nl :: r) = (v, nl :: r).
Proof.
  revert acc. induction l as [|c l IH]; intros acc H.
  - injection H as <-. reflexivity.
  - cbn [parse_hex] in H. cbn [app scan_hex].
    destruct (hex_value c); [auto | discriminate].
Qed.

Lemma fgets_line (l : list ascii) (acc v : Z) (room : nat) (r : list ascii) :
  parse_hex acc l = Some v -> (length l < room)%nat ->
  fgets room (l ++ nl :: r) = (l ++ [nl], r).
Proof.
  revert acc room. induction l as [|c l IH]; intros acc room H Hr.
  - destruct room; [simpl in Hr; lia | reflexivity].
  - cbn [parse_hex] in H. destruct (hex_value c) as [d|] eqn:E; [|discriminate].
    apply hex_value_plain in E as (_ & Hnl & _).
    destruct room; [simpl in Hr; lia|].
    cbn [app fgets]. rewrite Hnl, (IH _ room H) by (simpl in Hr; lia). done.
Qed.

Lemma c_string_line (l : list ascii) (acc v : Z) :
  parse_hex acc l = Some v -> c_string (l ++ [nl]) = l ++ [nl].
Proof.
  revert acc. induction l as [|c l IH]; intros acc H; [reflexivity|].
  cbn [parse_hex] in H. destruct (hex_value c) as [d|] eqn:E; [|discriminate].
  apply hex_value_plain in E as (_ & _ & Hnul & _).
  cbn [app c_string]. rewrite Hnul, (IH _ H). done.
Qed.

Lemma strtol16_line (l : list ascii) (u : Z) (r : list ascii) :
  parse_hex8 l = Some u -> strtol16 (l ++ nl :: r) = (u, nl :: r).
Proof.
  intros H. pose proof (parse_hex8_range l u H) as [Hlen Hu].
  unfold parse_hex8 in H. rewrite Hlen in H. cbn [Nat.eqb] in H.
  destruct l as [|c0 [|c1 l]]; [discriminate Hlen.. |].
  pose proof (scan_hex_line _ _ _ r H) as Hscan.
  cbn [parse_hex] in H.
  destruct (hex_value c0) as [d0|] eqn:E0; [|discriminate].
  destruct (hex_value c1) as [d1|] eqn:E1; [|discriminate].
  pose proof (hex_value_plain _ _ E0) as (_ & _ & _ & _ & _ & _ & Hsp & Hm & Hp & _).
  pose proof (hex_value_plain _ _ E1) as (_ & _ & _ & _ & _ & _ & _ & _ & _ & Hx & HX).
  unfold strtol16. cbn [app skip_while]. rewrite Hsp, Hm, Hp, Hx, HX.
  cbn [orb]. rewrite andb_false_r. cbn [andb starts_hex]. rewrite E0.
  cbn [app] in Hscan. rewrite Hscan. f_equal.
  unfold clamp_long.
  destruct (Z.ltb_spec (2 ^ 63 - 1) u); [lia|].
  destruct (Z.ltb_spec u (- 2 ^ 63)); [lia | done].
Qed.

Lemma load_line_hex (l : list ascii) (u addr : Z) (m : list Z) :
  parse_hex8 l = Some u ->
  load_line (l ++ [nl]) addr m
    = (m' ← store_bytes 4 0 addr (to_int u) m; Done (to_int (addr + 4), m')).
Proof.
  intros H. pose proof (strtol16_line l u [] H) as Hs.
  pose proof (parse_hex8_range l u H) as [Hlen _].
  unfold parse_hex8 in H. rewrite Hlen in H. cbn [Nat.eqb] in H.
  destruct l as [|c0 l]; [discriminate Hlen|].
  cbn [parse_hex] in H. destruct (hex_value c0) as [d0|] eqn:E0; [|discriminate].
  pose proof (hex_value_plain _ _ E0) as (_ & Hnl & _ & Hh & Hs' & Ha & _).
  unfold load_line. cbn [app] in *. rewrite Hh, Hs', Ha. cbn [orb].
  cbn [load_words]. rewrite Hnl, Hs.
  destruct (store_bytes 4 0 addr (to_int u) m) as [m'| |]; [|done..].
  cbn [mbind outcome_bind]. 
  change (skip_while is_blank [nl]) with [nl].
  destruct (length m); reflexivity.
Qed.

Lemma store_bytes_in (addr data : Z) (m : list Z) :
  0 <= addr -> addr + 4 <= Z.of_nat (length m) ->
  exists m', store_bytes 4 0 addr data m = Done m'.
Proof.
  intros Ha Hm. cbn [store_bytes].
  rewrite arr_write_in by lia. simpl.
  rewrite arr_write_in by (rewrite length_insert; lia). simpl.
  rewrite arr_write_in by (rewrite !length_insert; lia). simpl.
  rewrite arr_write_in by (rewrite !length_insert; lia). simpl. eauto.
Qed.

Lemma dump_text_cons (l : list ascii) (lines : list (list ascii)) :
  dump_text (l :: lines) = l ++ nl :: dump_text lines.
Proof. unfold dump_text. cbn [map concat]. now rewrite <- app_assoc. Qed.

Lemma length_dump_text (lines : list (list ascii)) :
  (length lines <= length (dump_text lines))%nat.
Proof.
  induction lines as [|l lines IH]; [done|].
  rewrite dump_text_cons, length_app. simpl. lia.
Qed.

(** The loader on a text of eight-digit lines stores word [k] of the text
    at [addr + 4k] and nothing else. *)
Lemma load_file_lines (lines : list (list ascii)) (fuel : nat) (addr : Z)
    (m : list Z) :
  Forall (fun l => is_Some (parse_hex8 l)) lines ->
  (length lines <= fuel)%nat ->
  0 <= addr -> addr + 4 * Z.of_nat (length lines) <= Z.of_nat (length m) ->
  Z.of_nat (length m) < 2 ^ 31 ->
  exists m',
    load_file fuel (dump_text lines) addr m = Done m' /\
    length m' = length m /\
    (forall (k : nat) l u, lines !! k = Some l -> parse_hex8 l = Some u ->
       le_word 4 (addr + 4 * Z.of_nat k) m' = u) /\
    (forall j, 0 <= j -> j < addr \/ addr + 4 * Z.of_nat (length lines) <= j ->
       m' !! Z.to_nat j = m !! Z.to_nat j).
Proof.
  intros Hl. revert fuel addr m.
  induction Hl as [|l lines [u Hu] _ IH]; intros fuel addr m Hf Ha Hin Hsz.
  - exists m. destruct fuel; simpl; repeat split; try done; intros [|k] ? ?; done.
  - cbn [length] in Hf, Hin. destruct fuel as [|fuel]; [lia|].
    pose proof (parse_hex8_range l u Hu) as [Hlen Hur].
    assert (parse_hex 0 l = Some u) as Hp.
    { unfold parse_hex8 in Hu. now rewrite Hlen in Hu. }
    rewrite dump_text_cons.
    destruct l as [|c0 l0] eqn:El; [discriminate Hlen|]. rewrite <- El in *.
    assert (load_file (S fuel) (l ++ nl :: dump_text lines) addr m
            = (let '(buf, rest) := fgets 255 (l ++ nl :: dump_text lines) in
               '(addr', m') ← load_line (c_string buf) addr m;
               load_file fuel rest addr' m')) as ->.
    { rewrite El. reflexivity. }
    rewrite (fgets_line l 0 u) by (done || lia).
    rewrite (c_string_line l 0 u Hp), (load_line_hex l u) by done.
    destruct (store_bytes_in addr (to_int u) m) as [m1 Hst]; [lia..|].
    rewrite Hst. cbn [mbind outcome_bind].
    pose proof (store_bytes_spec 4 0 addr (to_int u) m m1 ltac:(lia) Hst)
      as (Hlen1 & _ & Hb1).
    rewrite to_int_small by lia.
    destruct (IH fuel (addr + 4) m1) as (m' & Hload & Hlen' & Hw & Hout);
      [lia | lia | rewrite Hlen1; lia | rewrite Hlen1; lia |].
    exists m'. split; [exact Hload|]. split; [congruence|]. split.
    + intros [|k] l' u' Hk Hu'.
      * injection Hk as <-. rewrite Hu in Hu'. injection Hu' as <-.
        rewrite Z.mul_0_r, Z.add_0_r.
        rewrite (le_word_ext 4 addr m1 m');
          [| done | intros j Hj; apply Hout; [|left]; lia].
        rewrite (le_word_store _ _ addr _ _ Hst) by done.
        rewrite Z.eqb_refl, to_uint_to_int. apply to_uint_small. done.
      * replace (addr + 4 * Z.of_nat (S k)) with (addr + 4 + 4 * Z.of_nat k) by lia.
        eapply Hw; [exact Hk | exact Hu'].
    + intros j Hj Hout'. cbn [length] in Hout'. rewrite Hout by lia. rewrite Hb1 by done.
      destruct (Z.leb_spec 0 (j - addr)), (Z.ltb_spec (j - addr) (0 + Z.of_nat 4));
        simpl; auto; lia.
Qed.

(** What the writer has read lies inside the image. *)
Lemma write_words_reads (fuel : nat) (addr end_ : Z) (m : list Z)
    (ftmp r : FILE) :
  write_words fuel addr end_ m ftmp = Done r -> addr < end_ ->
  0 <= addr /\ addr + 4 * ((end_ - addr + 3) / 4) <= Z.of_nat (length m).
Proof.
  revert addr ftmp. induction fuel as [|fuel IH]; intros addr ftmp H Hlt;
    cbn [write_words] in H; destruct (Z.ltb_spec addr end_); try lia;
    [discriminate|].
  do 4 bind_inv H.
  apply arr_read_Done in Hx as [Hpos _], Hx2 as [_ H3].
  apply lookup_lt_Some in H3.
  destruct ftmp as [out|]; [|discriminate].
  destruct (Z.le_gt_cases end_ (addr + 4)).
  - assert ((end_ - addr + 3) / 4 = 1) as ->; [|lia].
    symmetry. apply (Z.div_unique _ 4 1 (end_ - addr - 1)); lia.
  - apply IH in H as [_ H]; [|lia].
    replace (end_ - addr + 3) with (end_ - (addr + 4) + 3 + 1 * 4) by lia.
    rewrite Z.div_add by lia. lia.
Qed.

(** X16: a dump can be loaded again.  When the words of the range
    [0, end) of an image have been dumped, the loader run on the dump file
    completes, and the image it builds holds the dumped words at their
    addresses and zero in every byte behind them. *)
Theorem reload_dump (cfg : Config) (m0 m1 : list Z) (end_ : Z)
    (lines : list (list ascii)) :
  0 < mem_sz cfg < 2 ^ 31 ->
  length m0 = Z.to_nat (mem_sz cfg) ->
  Forall is_byte m1 -> Z.of_nat (length m1) <= mem_sz cfg ->
  write_words (Z.to_nat end_) 0 end_ m1 (Some []) = Done (Some lines) ->
  exists m,
    load_program cfg (dump_text lines) m0 = Done m /\
    (forall k, 0 <= k -> 4 * k < end_ -> le_word 4 (4 * k) m = le_word 4 (4 * k) m1) /\
    (forall j, 0 <= j -> 4 * ((end_ + 3) / 4) <= j -> default 0 (m !! Z.to_nat j) = 0).
Proof.
  intros Hsz Hlen Hm1 Hlen1 Hdump.
  assert (memset_zero m0 (mem_sz cfg) = replicate (Z.to_nat (mem_sz cfg)) 0) as Hz.
  { unfold memset_zero. rewrite drop_ge by lia. apply app_nil_r. }
  pose proof Hdump as Hspec.
  apply write_words_spec in Hspec as (lines' & [= <-] & Hn & Hk); [|done].
  assert (4 * Z.of_nat (length lines) <= mem_sz cfg /\
          (0 < end_ -> Z.of_nat (length lines) = (end_ + 3) / 4) /\
          (end_ <= 0 -> lines = [])) as (Hfit & Hcnt & Hnone).
  { destruct (Z.ltb_spec 0 end_) as [Hpos|Hneg].
    - apply write_words_reads in Hdump as [_ Hr]; [|done].
      rewrite Z.sub_0_r in Hn, Hr. split; [lia|]. split; [done | lia].
    - assert (lines = []) as -> by (destruct lines; [done | simpl in Hn; lia]).
      simpl. split; [lia|]. split; [lia | done]. }
  destruct (load_file_lines lines (length (dump_text lines)) 0
              (replicate (Z.to_nat (mem_sz cfg)) 0))
    as (m & Hload & _ & Hw & Hout).
  { apply Forall_lookup. intros k l Hl. apply Hk in Hl as [_ Hl]. eauto. }
  { apply length_dump_text. }
  { lia. }
  { rewrite length_replicate. lia. }
  { rewrite length_replicate. lia. }
  exists m. unfold load_program. rewrite Hz. split; [exact Hload|]. split.
  - intros k Hk0 Hke.
    assert (exists l, lines !! Z.to_nat k = Some l) as [l Hl].
    { apply lookup_lt_is_Some. specialize (Hcnt ltac:(lia)).
      assert (k + 1 <= (end_ + 3) / 4); [|lia].
      apply Z.div_le_lower_bound; lia. }
    pose proof (Hk _ _ Hl) as [_ Hp]. rewrite Z2Nat.id, Z.add_0_l in Hp by done.
    specialize (Hw _ _ _ Hl Hp). now rewrite Z2Nat.id, Z.add_0_l in Hw.
  - intros j Hj Hbeh.
    rewrite Hout; [| done | right].
    + destruct (replicate (Z.to_nat (mem_sz cfg)) 0 !! Z.to_nat j) eqn:E; [|done].
      apply lookup_replicate in E as [-> _]. done.
    + destruct (Z.ltb_spec 0 end_) as [Hpos|Hneg].
      * rewrite (Hcnt Hpos). lia.
      * rewrite (Hnone Hneg). simpl. lia.
Qed.

Lemma reload_dump_witness :
  exists m,
    load_program (cfg_latency 1 1) (dump_text (map fprintf_08x [50462976; 117835012]))
      ramp16 = Done m /\
    (forall k, 0 <= k -> 4 * k < 8 -> le_word 4 (4 * k) m = le_word 4 (4 * k) ramp16) /\
    (forall j, 0 <= j -> 4 * ((8 + 3) / 4) <= j -> default 0 (m !! Z.to_nat j) = 0).
Proof.
  apply (reload_dump (cfg_latency 1 1) ramp16 ramp16 8
           (map fprintf_08x [50462976; 117835012])).
  - vm_compute. split; reflexivity.
  - reflexivity.
  - exact ramp16_bytes.
  - vm_compute. discriminate.
  - vm_compute. reflexivity.
Defined.

(** * The error signal, for every device *)

Section ErrorSignal.
Context {Core : Type}.
Variable eval : Vvproc_top Core -> Vvproc_top Core.
Implicit Type s : Sim Core.

End ErrorSignal.


(** * Latencies below one *)

Section NoLatency.
Context {Core : Type}.
Variable eval : Vvproc_top Core -> Vvproc_top Core.
Implicit Type s : Sim Core.

(** A step that ends, if not with its result, with an access outside a
    buffer. *)
Definition done_or_out_of_bounds {A : Type} (o : outcome A) : Prop :=
  (exists a, o = Done a) \/ o = Fault OutOfBounds.

Lemma bind_done_or_out_of_bounds {A B : Type} (m : outcome A)
    (k : A -> outcome B) :
  done_or_out_of_bounds m -> (forall a, done_or_out_of_bounds (k a)) ->
  done_or_out_of_bounds (m ≫= k).
Proof. intros [[a ->]| ->] Hk; [apply Hk | now right]. Qed.

Lemma arr_read_done_or_out_of_bounds (a : list Z) (i : Z) :
  done_or_out_of_bounds (arr_read a i).
Proof.
  unfold arr_read. destruct (0 <=? i); [|now right].
  destruct (a !! Z.to_nat i); [left; eauto | now right].
Qed.

Lemma arr_write_done_or_out_of_bounds (a : list Z) (i v : Z) :
  done_or_out_of_bounds (arr_write a i v).
Proof.
  unfold arr_write.
  destruct ((0 <=? i) && (i <? Z.of_nat (length a))); [left; eauto | now right].
Qed.

Lemma write_bytes_done_or_out_of_bounds (n : nat) (i addr be wdata : Z)
    (m : list Z) :
  done_or_out_of_bounds (write_bytes n i addr be wdata m).
Proof.
  revert i m. induction n as [|n IH]; intros i m; [left; eauto|].
  cbn [write_bytes]. apply bind_done_or_out_of_bounds; [|intros; apply IH].
  destruct (Z.land be (Z.shiftl 1 i) =? 0);
    [left; eauto | apply arr_write_done_or_out_of_bounds].
Qed.

Lemma read_bytes_done_or_out_of_bounds (n : nat) (i addr : Z) (m rd : list Z) :
  done_or_out_of_bounds (read_bytes n i addr m rd).
Proof.
  revert i rd. induction n as [|n IH]; intros i rd; [left; eauto|].
  cbn [read_bytes].
  apply bind_done_or_out_of_bounds; [apply arr_read_done_or_out_of_bounds|].
  intros b.
  apply bind_done_or_out_of_bounds; [apply arr_read_done_or_out_of_bounds|].
  intros cur.
  apply bind_done_or_out_of_bounds; [apply arr_write_done_or_out_of_bounds|].
  intros rd'. apply IH.
Qed.

Lemma mem_request_done_or_out_of_bounds (cfg : Config) s :
  done_or_out_of_bounds (mem_request cfg s).
Proof.
  unfold mem_request. apply bind_done_or_out_of_bounds.
  { destruct (negb (mem_req_o (top s) =? 0) && negb (mem_we_o (top s) =? 0));
      [apply write_bytes_done_or_out_of_bounds | left; eauto]. }
  intros m.
  apply bind_done_or_out_of_bounds; [apply arr_write_done_or_out_of_bounds|].
  intros rv.
  apply bind_done_or_out_of_bounds; [apply arr_write_done_or_out_of_bounds|].
  intros er.
  apply bind_done_or_out_of_bounds; [apply arr_write_done_or_out_of_bounds|].
  intros rd.
  apply bind_done_or_out_of_bounds; [apply read_bytes_done_or_out_of_bounds|].
  intros rd'. left. eauto.
Qed.

(** With a latency below 1 the pass reads index [mem_latency - 1 < 0] of
    the valid queue, if it has not left a buffer before. *)
Lemma cycle_without_latency (cfg : Config) s :
  mem_latency cfg < 1 -> cycle eval cfg s = Fault OutOfBounds.
Proof.
  intros HL. unfold cycle.
  destruct (mem_request_done_or_out_of_bounds cfg s) as [[s1 ->]| ->]; [|done].
  simpl. unfold fulfill, drive_response, arr_read.
  destruct (Z.leb_spec 0 (mem_latency cfg - 1)); [lia | done].
Qed.

(** X18: a latency below 1 is accepted by the argument checks, but with it
    the first pass of the loop makes an access outside a buffer, whatever
    the device, the state of the bench and the size of the queues: the
    pass reads index [mem_latency - 1], which is negative.  The reset
    sequence before it completes, as it clears no queue cell. *)
Theorem latency_below_one_leaves_buffer (fuel : nat) (cfg : Config) s :
  mem_latency cfg < 1 -> 1 <= extra_cycles cfg ->
  (exists s0, reset_dut eval cfg s = Done s0) /\
  simulate eval (S fuel) cfg s = Fault OutOfBounds.
Proof.
  intros HL He.
  assert (exists s0, reset_dut eval cfg s = Done s0) as [s0 Hr].
  { rewrite reset_dut_unfold.
    replace (Z.to_nat (mem_latency cfg)) with 0%nat by lia.
    cbn [clear_queue]. eexists. reflexivity. }
  split; [eauto|]. unfold simulate. rewrite Hr.
  cbn [sim_loop mbind outcome_bind].
  destruct (Z.ltb_spec 0 (extra_cycles cfg)); [|lia].
  now rewrite cycle_without_latency.
Qed.
End NoLatency.

Lemma latency_below_one_leaves_buffer_witness :
  (exists s0,
     reset_dut (Stub.eval four_reads) (cfg_latency 0 1)
       (Stub.bench Stub.power_on ramp16 []) = Done s0) /\
  simulate (Stub.eval four_reads) 20 (cfg_latency 0 1)
    (Stub.bench Stub.power_on ramp16 []) = Fault OutOfBounds.
Proof.
  apply (latency_below_one_leaves_buffer (Stub.eval four_reads) 19
           (cfg_latency 0 1)).
  - simpl. lia.
  - simpl. lia.
Defined.
